(** * BotLogging: the embed factory, the diff engine, the event renderers
      and the dispatch core of [botlog], embedded in Rocq.

    Sources: [src/botlog/embed.py] and [src/botlog/logger.py].

    Python values are a small inductive type; the keyword bag of a call
    ([**kwargs]) is a [gmap string value]; insertion-ordered dicts (the diff)
    and attribute tables are association lists.  Pure code returns
    [Ok]/[Raise]; the asynchronous handlers are written in a state monad over
    the observable [World] (console records, send attempts, clock reads,
    queue), whose outcome keeps the state a Python exception leaves behind. *)

From Stdlib Require Import ZArith String Ascii List Bool Lia Permutation DecimalString.
From stdpp Require Import base option gmap strings.
Import ListNotations.
Local Open Scope string_scope.
Local Open Scope Z_scope.
Set Warnings "-register-all".

(** ** Python values *)

(** [VObj oid cls text attrs] is an instance of a class outside this
    repository (a discord model, a datetime, an exception): [oid] is the key
    its [==] and [hash] use (the identity of a plain object, the snowflake of
    a discord model), [cls] its type name, [text] what [str()] returns and
    [attrs] everything [getattr] can see on it.  Floats, tuples and dicts do
    not occur in the modelled calls. *)
Inductive value : Type :=
| VNone
| VBool (b : bool)
| VInt (n : Z)
| VStr (s : string)
| VList (xs : list value)
| VObj (oid : Z) (cls : string) (text : string) (attrs : list (string * value)).

(** Errors raised by the interpreter's own operations and by the code of the
    repository; every one of them derives from [Exception]. *)
Inductive py_error : Type :=
| AttributeError (msg : string)
| TypeError (msg : string)
| ValueError (msg : string).

Definition error_str (e : py_error) : string :=
  match e with
  | AttributeError m | TypeError m | ValueError m => m
  end.

Inductive res (A : Type) : Type :=
| Ok (a : A)
| Raise (e : py_error).
Arguments Ok {A} a.
Arguments Raise {A} e.

Definition rbind {A B} (r : res A) (k : A -> res B) : res B :=
  match r with
  | Ok a => k a
  | Raise e => Raise e
  end.

Declare Scope res_scope.
Delimit Scope res_scope with res.
Notation "'let?' x ':=' r 'in' k" := (rbind r (fun x => k))
  (at level 10, x name, r at level 100, k at level 200) : res_scope.
Local Open Scope res_scope.

Fixpoint rmap {A B} (f : A -> res B) (l : list A) : res (list B) :=
  match l with
  | [] => Ok []
  | x :: l' => let? y := f x in let? ys := rmap f l' in Ok (y :: ys)
  end.

(** *** Strings *)

Definition ascii_upper (c : ascii) : ascii :=
  let n := nat_of_ascii c in
  if ((97 <=? n) && (n <=? 122))%nat then ascii_of_nat (n - 32) else c.

Definition ascii_lower (c : ascii) : ascii :=
  let n := nat_of_ascii c in
  if ((65 <=? n) && (n <=? 90))%nat then ascii_of_nat (n + 32) else c.

(** [str.upper] and [str.lower] on ASCII text; other bytes are kept.  No
    string holding a character outside ASCII lowercases to one of the five
    level names, so whether a lowercased string is one of them is decided
    here as in Python. *)
Fixpoint upper (s : string) : string :=
  match s with
  | EmptyString => EmptyString
  | String c s' => String (ascii_upper c) (upper s')
  end.

Fixpoint lower (s : string) : string :=
  match s with
  | EmptyString => EmptyString
  | String c s' => String (ascii_lower c) (lower s')
  end.

(** [sep.join(parts)] for parts already known to be strings. *)
Fixpoint join (sep : string) (parts : list string) : string :=
  match parts with
  | [] => ""
  | [p] => p
  | p :: rest => p ++ sep ++ join sep rest
  end.

(** [s[:n]] *)
Definition str_prefix (n : nat) (s : string) : string := substring 0 n s.

(** The one-character strings a [for] loop over a string yields. *)
Fixpoint str_chars (s : string) : list string :=
  match s with
  | EmptyString => []
  | String c s' => String c EmptyString :: str_chars s'
  end.

Definition str_of_Z (n : Z) : string := NilZero.string_of_int (Z.to_int n).

(** *** Truth, equality, hashing *)

(** [bool(v)] *)
Definition truthy (v : value) : bool :=
  match v with
  | VNone => false
  | VBool b => b
  | VInt n => negb (n =? 0)
  | VStr s => negb (String.eqb s "")
  | VList xs => match xs with [] => false | _ => true end
  | VObj _ _ _ _ => true
  end.

(** [a == b]: booleans compare as the integers 0 and 1, lists element-wise,
    objects by their key. *)
Fixpoint py_eq (a b : value) : bool :=
  match a, b with
  | VNone, VNone => true
  | VBool x, VBool y => Bool.eqb x y
  | VBool x, VInt n | VInt n, VBool x => n =? (if x then 1 else 0)
  | VInt n, VInt m => n =? m
  | VStr s, VStr t => String.eqb s t
  | VList xs, VList ys =>
      (fix list_eq (xs ys : list value) : bool :=
         match xs, ys with
         | [], [] => true
         | x :: xs', y :: ys' => py_eq x y && list_eq xs' ys'
         | _, _ => false
         end) xs ys
  | VObj i _ _ _, VObj j _ _ _ => i =? j
  | _, _ => false
  end.

Definition py_ne (a b : value) : bool := negb (py_eq a b).

Definition type_name (v : value) : string :=
  match v with
  | VNone => "NoneType"
  | VBool _ => "bool"
  | VInt _ => "int"
  | VStr _ => "str"
  | VList _ => "list"
  | VObj _ cls _ _ => cls
  end.

(** Lists are the unhashable values. *)
Definition hashable (v : value) : bool :=
  match v with
  | VList _ => false
  | _ => true
  end.

(** *** Attributes *)

Fixpoint assoc {A} (k : string) (l : list (string * A)) : option A :=
  match l with
  | [] => None
  | (k', v) :: l' => if String.eqb k k' then Some v else assoc k l'
  end.

(** The attribute table of a value.  A value of a built-in type carries none
    of the names this code reads. *)
Definition attrs_of (v : value) : list (string * value) :=
  match v with
  | VObj _ _ _ attrs => attrs
  | _ => []
  end.

(** [getattr(v, name, default)] *)
Definition getattr_default (v : value) (name : string) (default : value) : value :=
  match assoc name (attrs_of v) with
  | Some x => x
  | None => default
  end.

(** [v.name] *)
Definition getattr (v : value) (name : string) : res value :=
  match assoc name (attrs_of v) with
  | Some x => Ok x
  | None =>
      Raise (AttributeError
               ("'" ++ type_name v ++ "' object has no attribute '" ++ name ++ "'"))
  end.

(** [a or b] *)
Definition py_or (a b : value) : value := if truthy a then a else b.

(** ** The interpreter and library behaviour the repository relies on *)

(** What Python and its libraries decide and this repository does not: the
    text of [repr], which strings [int()] accepts, the order in which a set
    is iterated, the text of a formatted traceback, and the successive
    readings of the UTC clock. *)
Record Runtime : Type := {
  py_repr : value -> string;
  int_of_str : string -> option Z;
  set_iter : list value -> list value;
  set_iter_perm : forall l, Permutation (set_iter l) l;
  format_exception : value -> string;
  utcnow : nat -> value
}.

Section Model.

Variable rt : Runtime.

(** ** Built-in operations *)

(** [str(v)], also the text an f-string substitutes for [{v}]. *)
Definition py_str (v : value) : string :=
  match v with
  | VNone => "None"
  | VBool b => if b then "True" else "False"
  | VInt n => str_of_Z n
  | VStr s => s
  | VList xs => "[" ++ join ", " (map (py_repr rt) xs) ++ "]"
  | VObj _ _ text _ => text
  end.

(** [len(v)] *)
Definition py_len (v : value) : res Z :=
  match v with
  | VStr s => Ok (Z.of_nat (String.length s))
  | VList xs => Ok (Z.of_nat (List.length xs))
  | _ => Raise (TypeError ("object of type '" ++ type_name v ++ "' has no len()"))
  end.

(** The elements a [for] loop (or [set(v)]) draws from [v]. *)
Definition py_iter (v : value) : res (list value) :=
  match v with
  | VStr s => Ok (map VStr (str_chars s))
  | VList xs => Ok xs
  | _ => Raise (TypeError ("'" ++ type_name v ++ "' object is not iterable"))
  end.

(** [v[:n]] *)
Definition py_slice_to (n : nat) (v : value) : res value :=
  match v with
  | VStr s => Ok (VStr (str_prefix n s))
  | VList xs => Ok (VList (firstn n xs))
  | _ => Raise (TypeError ("'" ++ type_name v ++ "' object is not subscriptable"))
  end.

(** [int(v)] *)
Definition py_int (v : value) : res Z :=
  match v with
  | VBool b => Ok (if b then 1 else 0)
  | VInt n => Ok n
  | VStr s =>
      match int_of_str rt s with
      | Some n => Ok n
      | None =>
          Raise (ValueError
                   ("invalid literal for int() with base 10: " ++ py_repr rt v))
      end
  | _ =>
      Raise (TypeError
               ("int() argument must be a string, a bytes-like object or a number, not '"
                ++ type_name v ++ "'"))
  end.

(** *** Sets: the distinct elements, in the order they were added.  What a
    loop over the set sees is [set_iter rt] of that list. *)

Definition set_mem (x : value) (s : list value) : bool := existsb (py_eq x) s.

(** [s.add(x)] *)
Definition set_add (s : list value) (x : value) : res (list value) :=
  if hashable x then Ok (if set_mem x s then s else (s ++ [x])%list)
  else Raise (TypeError ("unhashable type: '" ++ type_name x ++ "'")).

Fixpoint set_add_all (s : list value) (xs : list value) : res (list value) :=
  match xs with
  | [] => Ok s
  | x :: xs' => let? s' := set_add s x in set_add_all s' xs'
  end.

(** [set(v)] *)
Definition py_set (v : value) : res (list value) :=
  let? xs := py_iter v in set_add_all [] xs.

(** [a ^ b] *)
Definition set_symdiff (a b : list value) : list value :=
  (List.filter (fun x => negb (set_mem x b)) a
   ++ List.filter (fun x => negb (set_mem x a)) b)%list.

(** [sep.join(parts)]: every part has to be a [str]. *)
Fixpoint join_parts (i : nat) (parts : list value) : res (list string) :=
  match parts with
  | [] => Ok []
  | VStr s :: rest => let? ss := join_parts (S i) rest in Ok (s :: ss)
  | v :: _ =>
      Raise (TypeError
               ("sequence item " ++ str_of_Z (Z.of_nat i)
                ++ ": expected str instance, " ++ type_name v ++ " found"))
  end.

Definition py_join (sep : string) (parts : list value) : res string :=
  let? ss := join_parts 0 parts in Ok (join sep ss).

(** ** embed.py *)

(** The colours of [discord.Color] the module uses. *)
Inductive Color : Type := green | dark_green | gold | red | blurple.

Record Field : Type := { name : string; fvalue : value }.

(** [discord.Embed]: a data container.  [add_field] keeps the value it is
    given; the library turns it into text when the embed is sent. *)
Record Embed : Type := {
  title : string;
  description : value;
  color : Color;
  timestamp : option value;
  fields : list Field
}.

Definition add_field (embed : Embed) (name : string) (v : value) : Embed :=
  {| title := title embed; description := description embed; color := color embed;
     timestamp := timestamp embed;
     fields := (fields embed ++ [ {| name := name; fvalue := v |} ])%list |}.

Definition set_timestamp (embed : Embed) (t : value) : Embed :=
  {| title := title embed; description := description embed; color := color embed;
     timestamp := Some t; fields := fields embed |}.

(** A subclass of [LogEmbed]: its two class attributes. *)
Record LogEmbedClass : Type := { cls_title : string; cls_color : Color }.

Definition InfoEmbed : LogEmbedClass := {| cls_title := "info"; cls_color := green |}.
Definition DebugEmbed : LogEmbedClass := {| cls_title := "debug"; cls_color := dark_green |}.
Definition WarningEmbed : LogEmbedClass := {| cls_title := "warning"; cls_color := gold |}.
Definition ErrorEmbed : LogEmbedClass := {| cls_title := "error"; cls_color := red |}.
Definition EventEmbed : LogEmbedClass := {| cls_title := "event"; cls_color := blurple |}.

(** [LogEmbed.__init__] *)
Definition LogEmbed (embed_cls : LogEmbedClass) (message : value) : Embed :=
  {| title := upper (cls_title embed_cls); description := message;
     color := cls_color embed_cls; timestamp := None; fields := [] |}.

Definition generate_log_embed (message : value) (level : string) : res Embed :=
  let level := lower level in
  let? embed_cls :=
    if String.eqb level "info" then Ok InfoEmbed
    else if String.eqb level "debug" then Ok DebugEmbed
    else if String.eqb level "warning" then Ok WarningEmbed
    else if String.eqb level "error" then Ok ErrorEmbed
    else if String.eqb level "event" then Ok EventEmbed
    else Raise (ValueError "invalid log level provided") in
  Ok (LogEmbed embed_cls message).

(** ** The diff engine *)

(** The [Munch] stored per attribute. *)
Record DiffData : Type := { before : value; after : value }.

(** [munch.munchify] turns dicts into attribute-accessible objects and leaves
    every other value as it is; the values here hold no dicts. *)
Definition munchify (d : DiffData) : DiffData := d.

(** [d[k] = v] on an insertion-ordered dict: a present key keeps its place. *)
Fixpoint dict_set {A} (k : string) (v : A) (d : list (string * A)) : list (string * A) :=
  match d with
  | [] => [(k, v)]
  | (k', v') :: d' =>
      if String.eqb k k' then (k, v) :: d' else (k', v') :: dict_set k v d'
  end.

Definition get_object_diff (before_obj after_obj : value) (attrs_to_check : list string)
  : list (string * DiffData) :=
  fold_left
    (fun result attr =>
       let after_value := getattr_default after_obj attr VNone in
       if negb (truthy after_value) then result
       else
         let before_value := getattr_default before_obj attr VNone in
         if negb (truthy before_value) then result
         else if py_ne before_value after_value
              then dict_set attr
                     (munchify {| before := before_value; after := after_value |}) result
              else result)
    attrs_to_check [].

(** The body of the loop of [add_diff_fields]: the fields one entry adds. *)
Definition diff_entry_fields (attr : string) (diff_data : DiffData) : res (list Field) :=
  let attru := upper attr in
  match before diff_data with
  | VList _ =>
      let? len_before := py_len (before diff_data) in
      let? len_after := py_len (after diff_data) in
      let action := if len_before <? len_after then "added" else "removed" in
      let? after_set := py_set (after diff_data) in
      let? before_set := py_set (before diff_data) in
      let list_diff := set_symdiff after_set before_set in
      Ok [ {| name := attru ++ " " ++ action;
              fvalue := VStr (join "," (map py_str (set_iter rt list_diff))) |} ]
  | _ =>
      Ok [ {| name := attru ++ " (before)"; fvalue := before diff_data |};
           {| name := attru ++ " (after)"; fvalue := after diff_data |} ]
  end.

Fixpoint add_diff_fields (embed : Embed) (diff : list (string * DiffData)) : res Embed :=
  match diff with
  | [] => Ok embed
  | (attr, diff_data) :: rest =>
      let? new_fields := diff_entry_fields attr diff_data in
      add_diff_fields
        (fold_left (fun e f => add_field e (name f) (fvalue f)) new_fields embed) rest
  end.

(** ** The event renderers *)

(** [kwargs.get(key)] and [kwargs.get(key, default)] *)
Definition kw_get_default (kwargs : gmap string value) (key : string) (d : value) : value :=
  match kwargs !! key with
  | Some v => v
  | None => d
  end.

Definition kw_get (kwargs : gmap string value) (key : string) : value :=
  kw_get_default kwargs key VNone.

(** An attribute chain [v.a.b.c] *)
Fixpoint getattr_path (v : value) (path : list string) : res value :=
  match path with
  | [] => Ok v
  | a :: path' => let? x := getattr v a in getattr_path x path'
  end.

(** What a renderer returns: the summary and the embed, each possibly
    [None]. *)
Definition Rendered : Type := (value * option Embed)%type.

Definition rendered (message : string) (embed : Embed) : res Rendered :=
  Ok (VStr message, Some embed).

(** [guild] is [VNone] where the source leaves the keyword out. *)
Definition get_server_text (upper_object guild : value) : res string :=
  let guild := py_or guild (getattr_default upper_object "guild" VNone) in
  if truthy guild then
    let? guild_name := getattr guild "name" in
    let? guild_id := getattr guild "id" in
    Ok (py_str guild_name ++ " (" ++ py_str guild_id ++ ")")
  else Ok "DM".

Definition render_default_event (args : list value) (kwargs : gmap string value)
  : res Rendered :=
  let event_type := kw_get kwargs "event_type" in
  let message := "New event: " ++ py_str event_type in
  let? embed := generate_log_embed (VStr message) "event" in
  rendered message embed.

Definition render_command_event (args : list value) (kwargs : gmap string value)
  : res Rendered :=
  let ctx := kw_get_default kwargs "context" (kw_get kwargs "ctx") in
  let? server_text := get_server_text ctx VNone in
  let? content := getattr_path ctx ["message"; "content"] in
  let? sliced := py_slice_to 100 content in
  let sliced_content := "Command detected: `" ++ py_str sliced ++ "`" in
  let message := "Command detected: " ++ sliced_content in
  let? embed := generate_log_embed (VStr sliced_content) "event" in
  let? author := getattr ctx "author" in
  let embed := add_field embed "User" author in
  let? channel := getattr ctx "channel" in
  let embed := add_field embed "Channel" (getattr_default channel "name" (VStr "DM")) in
  let embed := add_field embed "Server" (VStr server_text) in
  rendered message embed.

Definition render_message_delete_event (args : list value) (kwargs : gmap string value)
  : res Rendered :=
  let message_object := kw_get kwargs "message" in
  let? server_text := get_server_text message_object VNone in
  let? id := getattr message_object "id" in
  let message := "Message with ID " ++ py_str id ++ " deleted" in
  let? embed := generate_log_embed (VStr message) "event" in
  let? content := getattr message_object "content" in
  let embed := add_field embed "Content" (py_or content (VStr "None")) in
  let? author := getattr message_object "author" in
  let embed := add_field embed "Author" author in
  let? channel := getattr message_object "channel" in
  let embed := add_field embed "Channel" (getattr_default channel "name" (VStr "DM")) in
  let embed := add_field embed "Server" (VStr server_text) in
  rendered message embed.

Definition render_message_edit_event (args : list value) (kwargs : gmap string value)
  : res Rendered :=
  let before := kw_get kwargs "before" in
  let after := kw_get kwargs "after" in
  let attrs := ["content"; "embeds"] in
  let diff := get_object_diff before after attrs in
  let? channel := getattr before "channel" in
  let? server_text := get_server_text channel VNone in
  let? id := getattr before "id" in
  let message := "Message edit detected on message with ID " ++ py_str id in
  let? embed := generate_log_embed (VStr message) "event" in
  let? embed := add_diff_fields embed diff in
  let? author := getattr before "author" in
  let embed := add_field embed "Author" author in
  let? channel := getattr before "channel" in
  let embed := add_field embed "Channel" (getattr_default channel "name" (VStr "DM")) in
  let embed := add_field embed "Server" (VStr server_text) in
  rendered message embed.

(** The loop of [render_bulk_message_delete_event] over the messages,
    threading the two sets. *)
Fixpoint bulk_delete_sets (messages : list value) (unique_channels unique_servers : list value)
  : res (list value * list value) :=
  match messages with
  | [] => Ok (unique_channels, unique_servers)
  | message :: rest =>
      let? channel_name := getattr_path message ["channel"; "name"] in
      let? unique_channels := set_add unique_channels channel_name in
      let? guild_name := getattr_path message ["channel"; "guild"; "name"] in
      let? guild_id := getattr_path message ["channel"; "guild"; "id"] in
      let? unique_servers :=
        set_add unique_servers (VStr (py_str guild_name ++ " (" ++ py_str guild_id ++ ")")) in
      bulk_delete_sets rest unique_channels unique_servers
  end.

Definition render_bulk_message_delete_event (args : list value) (kwargs : gmap string value)
  : res Rendered :=
  let messages := kw_get kwargs "messages" in
  let? items := py_iter messages in
  let? sets := bulk_delete_sets items [] [] in
  let? count := py_len messages in
  let message := py_str (VInt count) ++ " messages bulk deleted!" in
  let? embed := generate_log_embed (VStr message) "event" in
  let? channels := py_join "," (set_iter rt (fst sets)) in
  let embed := add_field embed "Channels" (VStr channels) in
  let? servers := py_join "," (set_iter rt (snd sets)) in
  let embed := add_field embed "Servers" (VStr servers) in
  rendered message embed.

(** [render_reaction_add_event] and [render_reaction_remove_event] differ in
    the wording of the summary only; [summary] builds it from the two IDs. *)
Definition render_reaction_event (summary : string -> string -> string)
  (kwargs : gmap string value) : res Rendered :=
  let reaction := kw_get kwargs "reaction" in
  let user := kw_get kwargs "user" in
  let? channel := getattr_path reaction ["message"; "channel"] in
  let? server_text := get_server_text channel VNone in
  let? message_id := getattr_path reaction ["message"; "id"] in
  let? user_id := getattr user "id" in
  let message := summary (py_str message_id) (py_str user_id) in
  let? embed := generate_log_embed (VStr message) "event" in
  let? emoji := getattr reaction "emoji" in
  let embed := add_field embed "Emoji" emoji in
  let embed := add_field embed "User" user in
  let? content := getattr_path reaction ["message"; "content"] in
  let embed := add_field embed "Message" (py_or content (VStr "None")) in
  let? author := getattr_path reaction ["message"; "author"] in
  let embed := add_field embed "Message Author" author in
  let? channel := getattr_path reaction ["message"; "channel"] in
  let embed := add_field embed "Channel" (getattr_default channel "name" (VStr "DM")) in
  let embed := add_field embed "Server" (VStr server_text) in
  rendered message embed.

Definition render_reaction_add_event (args : list value) (kwargs : gmap string value)
  : res Rendered :=
  render_reaction_event
    (fun message_id user_id =>
       "Reaction added to message with ID " ++ message_id
       ++ " by user with ID " ++ user_id) kwargs.

Definition render_reaction_remove_event (args : list value) (kwargs : gmap string value)
  : res Rendered :=
  render_reaction_event
    (fun message_id user_id =>
       "Reaction removed from message with ID " ++ message_id
       ++ " by user with ID " ++ user_id) kwargs.

(** The loop of [render_reaction_clear_event] collecting the emojis. *)
Fixpoint clear_emojis (reactions : list value) (unique_emojis : list value)
  : res (list value) :=
  match reactions with
  | [] => Ok unique_emojis
  | reaction :: rest =>
      let? emoji := getattr reaction "emoji" in
      let? unique_emojis := set_add unique_emojis emoji in
      clear_emojis rest unique_emojis
  end.

(** The local [message] first holds the message object and is then rebound
    to the summary string; the later reads of [message.content],
    [message.author] and [message.channel] are reads off that string. *)
Definition render_reaction_clear_event (args : list value) (kwargs : gmap string value)
  : res Rendered :=
  let message := kw_get kwargs "message" in
  let reactions := kw_get kwargs "reactions" in
  let? channel := getattr message "channel" in
  let? server_text := get_server_text channel VNone in
  let? count := py_len reactions in
  let? id := getattr message "id" in
  let message := VStr (py_str (VInt count) ++ " cleared from message with ID " ++ py_str id) in
  let? items := py_iter reactions in
  let? unique_emojis := clear_emojis items [] in
  let? embed := generate_log_embed message "event" in
  let? emojis := py_join "," (set_iter rt unique_emojis) in
  let embed := add_field embed "Emojis" (VStr emojis) in
  let? content := getattr message "content" in
  let embed := add_field embed "Message" (py_or content (VStr "None")) in
  let? author := getattr message "author" in
  let embed := add_field embed "Message Author" author in
  let? channel := getattr message "channel" in
  let embed := add_field embed "Channel" (getattr_default channel "name" (VStr "DM")) in
  let embed := add_field embed "Server" (VStr server_text) in
  Ok (message, Some embed).

(** [render_guild_channel_delete_event], [render_guild_channel_create_event],
    [render_guild_channel_pins_update_event] and [render_webhooks_update_event]
    read the same keyword and attributes; they differ in the summary and in
    the name of the channel field. *)
Definition render_channel_event (summary : string -> string -> string)
  (field_name : string) (kwargs : gmap string value) : res Rendered :=
  let channel := kw_get kwargs "channel_" in
  let? server_text := get_server_text channel VNone in
  let? channel_id := getattr channel "id" in
  let? guild_id := getattr_path channel ["guild"; "id"] in
  let message := summary (py_str channel_id) (py_str guild_id) in
  let? embed := generate_log_embed (VStr message) "event" in
  let? channel_name := getattr channel "name" in
  let embed := add_field embed field_name channel_name in
  let embed := add_field embed "Server" (VStr server_text) in
  rendered message embed.

Definition render_guild_channel_delete_event (args : list value)
  (kwargs : gmap string value) : res Rendered :=
  render_channel_event
    (fun channel_id guild_id =>
       "Channel with ID " ++ channel_id ++ " deleted in guild with ID " ++ guild_id)
    "Channel Name" kwargs.

Definition render_guild_channel_create_event (args : list value)
  (kwargs : gmap string value) : res Rendered :=
  render_channel_event
    (fun channel_id guild_id =>
       "Channel with ID " ++ channel_id ++ " created in guild with ID " ++ guild_id)
    "Channel Name" kwargs.

Definition render_guild_channel_update_event (args : list value)
  (kwargs : gmap string value) : res Rendered :=
  let before := kw_get kwargs "before" in
  let after := kw_get kwargs "after" in
  let? server_text := get_server_text before VNone in
  let attrs :=
    ["category"; "changed_roles"; "name"; "overwrites"; "permissions_synced"; "position"] in
  let diff := get_object_diff before after attrs in
  let? id := getattr before "id" in
  let? guild_id := getattr_path before ["guild"; "id"] in
  let message :=
    "Channel with ID " ++ py_str id ++ " modified in guild with ID " ++ py_str guild_id in
  let? embed := generate_log_embed (VStr message) "event" in
  let? embed := add_diff_fields embed diff in
  let? channel_name := getattr before "name" in
  let embed := add_field embed "Channel Name" channel_name in
  let embed := add_field embed "Server" (VStr server_text) in
  rendered message embed.

Definition render_guild_channel_pins_update_event (args : list value)
  (kwargs : gmap string value) : res Rendered :=
  render_channel_event
    (fun channel_id guild_id =>
       "Channel pins updated in channel with ID " ++ channel_id
       ++ " in guild with ID " ++ guild_id)
    "Channel Name" kwargs.

(** [render_guild_integrations_update_event], [render_guild_join_event],
    [render_guild_remove_event] and [render_guild_emojis_update_event]:
    the guild keyword, a summary with its ID, and the server field. *)
Definition render_guild_event (summary : string -> string) (kwargs : gmap string value)
  : res Rendered :=
  let guild := kw_get kwargs "guild" in
  let? server_text := get_server_text VNone guild in
  let? guild_id := getattr guild "id" in
  let message := summary (py_str guild_id) in
  let? embed := generate_log_embed (VStr message) "event" in
  let embed := add_field embed "Server" (VStr server_text) in
  rendered message embed.

Definition render_guild_integrations_update_event (args : list value)
  (kwargs : gmap string value) : res Rendered :=
  render_guild_event (fun guild_id => "Integrations updated in guild with ID " ++ guild_id)
    kwargs.

Definition render_webhooks_update_event (args : list value) (kwargs : gmap string value)
  : res Rendered :=
  render_channel_event
    (fun channel_id guild_id =>
       "Webooks updated for channel with ID " ++ channel_id
       ++ " in guild with ID " ++ guild_id)
    "Channel" kwargs.

(** [render_member_join_event] and [render_member_remove_event] *)
Definition render_member_event (summary : string -> string -> string)
  (kwargs : gmap string value) : res Rendered :=
  let member := kw_get kwargs "member" in
  let? server_text := get_server_text member VNone in
  let? member_id := getattr member "id" in
  let? guild_id := getattr_path member ["guild"; "id"] in
  let message := summary (py_str member_id) (py_str guild_id) in
  let? embed := generate_log_embed (VStr message) "event" in
  let embed := add_field embed "Member" member in
  let embed := add_field embed "Server" (VStr server_text) in
  rendered message embed.

Definition render_member_join_event (args : list value) (kwargs : gmap string value)
  : res Rendered :=
  render_member_event
    (fun member_id guild_id =>
       "Member with ID " ++ member_id ++ " has joined guild with ID " ++ guild_id) kwargs.

Definition render_member_remove_event (args : list value) (kwargs : gmap string value)
  : res Rendered :=
  render_member_event
    (fun member_id guild_id =>
       "Member with ID " ++ member_id ++ " has left guild with ID " ++ guild_id) kwargs.

Definition render_member_update_event (args : list value) (kwargs : gmap string value)
  : res Rendered :=
  let before := kw_get kwargs "before" in
  let after := kw_get kwargs "after" in
  let? server_text := get_server_text before VNone in
  let attrs := ["avatar_url"; "avatar"; "nick"; "roles"; "status"] in
  let diff := get_object_diff before after attrs in
  let? id := getattr before "id" in
  let? guild_id := getattr_path before ["guild"; "id"] in
  let message :=
    "Member with ID " ++ py_str id ++ " was updated in guild with ID " ++ py_str guild_id in
  match diff with
  | _ :: _ =>
      let? embed := generate_log_embed (VStr message) "event" in
      let? embed := add_diff_fields embed diff in
      let embed := add_field embed "Member" before in
      let embed := add_field embed "Server" (VStr server_text) in
      rendered message embed
  | [] => Ok (VNone, None)
  end.

Definition render_guild_join_event (args : list value) (kwargs : gmap string value)
  : res Rendered :=
  render_guild_event (fun guild_id => "Joined guild with ID " ++ guild_id) kwargs.

Definition render_guild_remove_event (args : list value) (kwargs : gmap string value)
  : res Rendered :=
  render_guild_event (fun guild_id => "Left guild with ID " ++ guild_id) kwargs.

Definition render_guild_update_event (args : list value) (kwargs : gmap string value)
  : res Rendered :=
  let before := kw_get kwargs "before" in
  let after := kw_get kwargs "after" in
  let? server_text := get_server_text VNone before in
  let attrs :=
    ["banner"; "banner_url"; "bitrate_limit"; "categories"; "default_role";
     "description"; "discovery_splash"; "discovery_splash_url"; "emoji_limit";
     "emojis"; "explicit_content_filter"; "features"; "icon"; "icon_url"; "name";
     "owner"; "region"; "roles"; "rules_channel"; "verification_level"] in
  let diff := get_object_diff before after attrs in
  let? id := getattr before "id" in
  let message := "Guild with ID " ++ py_str id ++ " updated" in
  let? embed := generate_log_embed (VStr message) "event" in
  let? embed := add_diff_fields embed diff in
  let embed := add_field embed "Server" (VStr server_text) in
  rendered message embed.

(** [render_guild_role_create_event] and [render_guild_role_delete_event] *)
Definition render_role_event (summary : string -> string -> string)
  (kwargs : gmap string value) : res Rendered :=
  let role := kw_get kwargs "role" in
  let? server_text := get_server_text role VNone in
  let? role_name := getattr role "name" in
  let? guild_id := getattr_path role ["guild"; "id"] in
  let message := summary (py_str role_name) (py_str guild_id) in
  let? embed := generate_log_embed (VStr message) "event" in
  let embed := add_field embed "Server" (VStr server_text) in
  rendered message embed.

Definition render_guild_role_create_event (args : list value) (kwargs : gmap string value)
  : res Rendered :=
  render_role_event
    (fun role_name guild_id =>
       "New role with name " ++ role_name ++ " added to guild with ID " ++ guild_id) kwargs.

Definition render_guild_role_delete_event (args : list value) (kwargs : gmap string value)
  : res Rendered :=
  render_role_event
    (fun role_name guild_id =>
       "Role with name " ++ role_name ++ " deleted from guild with ID " ++ guild_id) kwargs.

Definition render_guild_role_update_event (args : list value) (kwargs : gmap string value)
  : res Rendered :=
  let before := kw_get kwargs "before" in
  let after := kw_get kwargs "after" in
  let? server_text := get_server_text before VNone in
  let attrs := ["color"; "mentionable"; "name"; "permissions"; "position"; "tags"] in
  let diff := get_object_diff before after attrs in
  let? role_name := getattr before "name" in
  let? guild_id := getattr_path before ["guild"; "id"] in
  let message :=
    "Role with name " ++ py_str role_name ++ " updated in guild with ID " ++ py_str guild_id in
  let? embed := generate_log_embed (VStr message) "event" in
  let? embed := add_diff_fields embed diff in
  let embed := add_field embed "Server" (VStr server_text) in
  rendered message embed.

Definition render_guild_emojis_update_event (args : list value) (kwargs : gmap string value)
  : res Rendered :=
  render_guild_event (fun guild_id => "Emojis updated in guild with ID " ++ guild_id) kwargs.

(** [render_member_ban_event] and [render_member_unban_event] *)
Definition render_ban_event (summary : string -> string -> string)
  (kwargs : gmap string value) : res Rendered :=
  let guild := kw_get kwargs "guild" in
  let user := kw_get kwargs "user" in
  let? server_text := get_server_text VNone guild in
  let? user_id := getattr user "id" in
  let? guild_id := getattr guild "id" in
  let message := summary (py_str user_id) (py_str guild_id) in
  let? embed := generate_log_embed (VStr message) "event" in
  let embed := add_field embed "User" user in
  let embed := add_field embed "Server" (VStr server_text) in
  rendered message embed.

Definition render_member_ban_event (args : list value) (kwargs : gmap string value)
  : res Rendered :=
  render_ban_event
    (fun user_id guild_id =>
       "User with ID " ++ user_id ++ " banned from guild with ID " ++ guild_id) kwargs.

Definition render_member_unban_event (args : list value) (kwargs : gmap string value)
  : res Rendered :=
  render_ban_event
    (fun user_id guild_id =>
       "User with ID " ++ user_id ++ " unbanned from guild with ID " ++ guild_id) kwargs.

(** The methods of [BotLogger] whose name has the form [render_..._event]:
    what [getattr(self, render_func_name, ...)] can find. *)
Definition renderers
  : list (string * (list value -> gmap string value -> res Rendered)) :=
  [ ("render_default_event", render_default_event);
    ("render_command_event", render_command_event);
    ("render_message_delete_event", render_message_delete_event);
    ("render_message_edit_event", render_message_edit_event);
    ("render_bulk_message_delete_event", render_bulk_message_delete_event);
    ("render_reaction_add_event", render_reaction_add_event);
    ("render_reaction_remove_event", render_reaction_remove_event);
    ("render_reaction_clear_event", render_reaction_clear_event);
    ("render_guild_channel_delete_event", render_guild_channel_delete_event);
    ("render_guild_channel_create_event", render_guild_channel_create_event);
    ("render_guild_channel_update_event", render_guild_channel_update_event);
    ("render_guild_channel_pins_update_event", render_guild_channel_pins_update_event);
    ("render_guild_integrations_update_event", render_guild_integrations_update_event);
    ("render_webhooks_update_event", render_webhooks_update_event);
    ("render_member_join_event", render_member_join_event);
    ("render_member_remove_event", render_member_remove_event);
    ("render_member_update_event", render_member_update_event);
    ("render_guild_join_event", render_guild_join_event);
    ("render_guild_remove_event", render_guild_remove_event);
    ("render_guild_update_event", render_guild_update_event);
    ("render_guild_role_create_event", render_guild_role_create_event);
    ("render_guild_role_delete_event", render_guild_role_delete_event);
    ("render_guild_role_update_event", render_guild_role_update_event);
    ("render_guild_emojis_update_event", render_guild_emojis_update_event);
    ("render_member_ban_event", render_member_ban_event);
    ("render_member_unban_event", render_member_unban_event) ].

(** ** The world the asynchronous code acts on *)

(** What can propagate out of awaited code: an error of the interpreter or
    the repository, [discord.Forbidden], any other class deriving from
    [Exception] (other HTTP errors, network errors), or a [BaseException]
    outside [Exception] ([asyncio.CancelledError], [KeyboardInterrupt]). *)
Inductive exn : Type :=
| Builtin (e : py_error)
| Forbidden (msg : string)
| OtherException (cls msg : string)
| NonException (cls msg : string).

(** [isinstance(e, discord.Forbidden)] *)
Definition is_Forbidden (e : exn) : bool :=
  match e with
  | Forbidden _ => true
  | _ => false
  end.

(** [isinstance(e, Exception)] *)
Definition is_Exception (e : exn) : bool :=
  match e with
  | NonException _ _ => false
  | _ => true
  end.

(** [str(e)] *)
Definition exn_str (e : exn) : string :=
  match e with
  | Builtin e => error_str e
  | Forbidden m | OtherException _ m | NonException _ m => m
  end.

(** The methods of the console logger. *)
Inductive ConsoleLevel : Type := console_debug | console_info | console_warning | console_error.

(** One call of [target.send(content, embed=embed)] and how it ended
    ([None]: delivered). *)
Record SendAttempt : Type := {
  sa_target : value;
  sa_content : value;
  sa_embed : option Embed;
  sa_outcome : option exn
}.

Record DelayedLog : Type := {
  level : string;
  message : value;
  args : list value;
  kwargs : gmap string value
}.

(** The external client: channel lookup, owner lookup, and what sending a
    given payload to a given target does. *)
Record Bot : Type := {
  get_channel : Z -> value;
  get_owner : value;
  target_send : value -> value -> option Embed -> option exn
}.

(** [queue_wait] is the configured interval; an absent one reads as 0, and
    only whether it is 0 matters here.  [send] is the constructor's keyword
    as given ([VNone] when absent). *)
Record BotLogger : Type := {
  bot : Bot;
  debug_mode : bool;
  queue_wait : Z;
  send : value
}.

(** The observable state: the calls made to the console logger, the send
    attempts, how often the clock was read, and the queue (oldest first). *)
Record World : Type := {
  console : list (ConsoleLevel * value);
  sent : list SendAttempt;
  clock_reads : nat;
  send_queue : list DelayedLog
}.

(** How a coroutine leaves: it returns, it raises, or it stays suspended on
    the queue (a [put] on a full queue, a [get] on an empty one). *)
Inductive outcome (A : Type) : Type :=
| Done (a : A)
| Raised (e : exn)
| Parked.
Arguments Done {A} a.
Arguments Raised {A} e.
Arguments Parked {A}.

Definition M (A : Type) : Type := World -> outcome A * World.

Definition ret {A} (a : A) : M A := fun w => (Done a, w).

Definition bind {A B} (m : M A) (k : A -> M B) : M B :=
  fun w =>
    match m w with
    | (Done a, w') => k a w'
    | (Raised e, w') => (Raised e, w')
    | (Parked, w') => (Parked, w')
    end.

Definition raise {A} (e : exn) : M A := fun w => (Raised e, w).

Definition lift {A} (r : res A) : M A :=
  match r with
  | Ok a => ret a
  | Raise e => raise (Builtin e)
  end.

Declare Scope world_scope.
Delimit Scope world_scope with world.
Notation "x <- m ;; k" := (bind m (fun x => k))
  (at level 100, m at next level, right associativity) : world_scope.
Notation "m ;; k" := (bind m (fun _ => k))
  (at level 100, right associativity) : world_scope.
Local Open Scope world_scope.

(** [try: body / except discord.Forbidden: pass] *)
Definition except_Forbidden (body : M unit) : M unit :=
  fun w =>
    match body w with
    | (Raised e, w') => if is_Forbidden e then (Done tt, w') else (Raised e, w')
    | r => r
    end.

(** [try: body / except Exception as exception: handler] *)
Definition except_Exception {A} (body : M A) (handler : exn -> M A) : M A :=
  fun w =>
    match body w with
    | (Raised e, w') => if is_Exception e then handler e w' else (Raised e, w')
    | r => r
    end.

Definition console_log (lvl : ConsoleLevel) (msg : value) : M unit :=
  fun w =>
    (Done tt,
     {| console := (console w ++ [(lvl, msg)])%list; sent := sent w;
        clock_reads := clock_reads w; send_queue := send_queue w |}).

(** [datetime.datetime.utcnow()] *)
Definition now : M value :=
  fun w =>
    (Done (utcnow rt (clock_reads w)),
     {| console := console w; sent := sent w;
        clock_reads := S (clock_reads w); send_queue := send_queue w |}).

Variable self : BotLogger.

(** [await target.send(content, embed=embed)] *)
Definition do_send (target content : value) (embed : option Embed) : M unit :=
  fun w =>
    let result := target_send (bot self) target content embed in
    let w' :=
      {| console := console w;
         sent := (sent w ++ [ {| sa_target := target; sa_content := content;
                                 sa_embed := embed; sa_outcome := result |} ])%list;
         clock_reads := clock_reads w; send_queue := send_queue w |} in
    match result with
    | None => (Done tt, w')
    | Some e => (Raised e, w')
    end.

(** [self.send_queue]: [asyncio.Queue(maxsize=1000)] when [queue_wait] is
    set, and [None] otherwise. *)
Definition maxsize : nat := 1000.

Definition no_queue (method : string) : exn :=
  Builtin (AttributeError ("'NoneType' object has no attribute '" ++ method ++ "'")).

(** [await self.send_queue.put(log)] *)
Definition queue_put (log : DelayedLog) : M unit :=
  fun w =>
    if queue_wait self =? 0 then (Raised (no_queue "put"), w)
    else if (List.length (send_queue w) <? maxsize)%nat
    then (Done tt,
          {| console := console w; sent := sent w; clock_reads := clock_reads w;
             send_queue := (send_queue w ++ [log])%list |})
    else (Parked, w).

(** [await self.send_queue.get()] *)
Definition queue_get : M DelayedLog :=
  fun w =>
    if queue_wait self =? 0 then (Raised (no_queue "get"), w)
    else
      match send_queue w with
      | [] => (Parked, w)
      | log :: rest =>
          (Done log,
           {| console := console w; sent := sent w; clock_reads := clock_reads w;
              send_queue := rest |})
      end.

(** [await asyncio.sleep(delay)]: time passes, nothing observable changes. *)
Definition sleep (delay : Z) : M unit := ret tt.

(** Passing [**kwargs] to a function whose named parameters [params] are
    already bound is a [TypeError] when a key repeats one of them. *)
Definition bind_kwargs (func : string) (params : list string) (kwargs : gmap string value)
  : M unit :=
  match List.find (fun p => bool_decide (is_Some (kwargs !! p))) params with
  | Some p =>
      raise (Builtin (TypeError (func ++ "() got multiple values for argument '" ++ p ++ "'")))
  | None => ret tt
  end.

(** ** The dispatch core *)

Definition DEFAULT_LOG_SEND : bool := false.
Definition DEFAULT_ERROR_LOG_SEND : bool := true.

Definition _is_console_only (kwargs : gmap string value) (is_error : bool) : bool :=
  if negb (truthy (send self)) then true
  else
    let default_send := if is_error then DEFAULT_ERROR_LOG_SEND else DEFAULT_LOG_SEND in
    negb (truthy (kw_get_default kwargs "send" (VBool default_send))).

(** [self.bot.get_channel(int(channel_id)) if channel_id else None] *)
Definition lookup_channel (channel_id : value) : M value :=
  if truthy channel_id
  then n <- lift (py_int channel_id) ;; ret (get_channel (bot self) n)
  else ret VNone.

Definition handle_generic_log (message : value) (level_ : string) (console : ConsoleLevel)
  (args : list value) (kwargs : gmap string value) : M unit :=
  bind_kwargs "handle_generic_log" ["self"; "message"; "level_"; "console"] kwargs ;;
  let console_only := _is_console_only kwargs false in
  let channel_id := kw_get_default kwargs "channel" VNone in
  console_log console message ;;
  if console_only then ret tt
  else
    channel <- lookup_channel channel_id ;;
    let target := if truthy channel then channel else get_owner (bot self) in
    if negb (truthy target)
    then console_log console_warning
           (VStr ("Could not determine Discord target to send " ++ level_ ++ " log"))
    else
      embed <- lift (generate_log_embed message level_) ;;
      utc <- now ;;
      let embed := set_timestamp embed (kw_get_default kwargs "time" utc) in
      except_Forbidden (do_send target VNone (Some embed)).

(** [getattr(self, render_func_name, self.render_default_event)] *)
Definition lookup_renderer (render_func_name : string)
  : list value -> gmap string value -> res Rendered :=
  match assoc render_func_name renderers with
  | Some render_func => render_func
  | None => render_default_event
  end.

Definition generate_event_data (event_type : value) (args : list value)
  (kwargs : gmap string value) : M Rendered :=
  let render_func_name := "render_" ++ py_str event_type ++ "_event" in
  let render_func := lookup_renderer render_func_name in
  let kwargs := <["event_type" := event_type]> kwargs in
  except_Exception
    (lift (render_func args kwargs))
    (fun exception =>
       console_log console_error
         (VStr ("Could not render event data: " ++ exn_str exception
                ++ " (using default render)")) ;;
       lift (render_default_event args kwargs)).

(** The dict [generate_event_data] returns always has its two keys, so the
    test [if not event_data] never fires; an embed, when there is one, is
    truthy (its title is not empty). *)
Definition handle_event_log (event_type : value) (args : list value)
  (kwargs : gmap string value) : M unit :=
  bind_kwargs "handle_event_log" ["self"; "event_type"] kwargs ;;
  let console_only := _is_console_only kwargs false in
  let channel_id := kw_get_default kwargs "channel" VNone in
  event_data <- generate_event_data event_type args kwargs ;;
  let message := fst event_data in
  if negb (truthy message) then ret tt
  else
    console_log console_info message ;;
    if console_only then ret tt
    else
      channel <- lookup_channel channel_id ;;
      let target := if truthy channel then channel else get_owner (bot self) in
      if negb (truthy target)
      then console_log console_warning
             (VStr "Could not determine Discord target to send EVENT log")
      else
        match snd event_data with
        | None => ret tt
        | Some embed =>
            utc <- now ;;
            let embed := set_timestamp embed (kw_get_default kwargs "time" utc) in
            except_Forbidden (do_send target VNone (Some embed))
        end.

Definition newline : string := String (ascii_of_nat 10) EmptyString.

Definition handle_error_log (message : value) (args : list value)
  (kwargs : gmap string value) : M unit :=
  bind_kwargs "handle_error_log" ["self"; "message"] kwargs ;;
  let exception := kw_get_default kwargs "exception" VNone in
  let critical := kw_get kwargs "critical" in
  let channel_id := kw_get_default kwargs "channel" VNone in
  let console_only := _is_console_only kwargs true in
  console_log console_error message ;;
  if console_only then ret tt
  else
    _ <- lift (getattr exception "__traceback__") ;;
    let exception_string := format_exception rt exception in
    let exception_string := str_prefix 1992 exception_string in
    embed <- lift (generate_log_embed message "error") ;;
    utc <- now ;;
    let embed := set_timestamp embed (kw_get_default kwargs "time" utc) in
    channel <- lookup_channel channel_id ;;
    target_content <-
      (if truthy channel
       then
         content <- (if truthy critical
                     then lift (getattr_path channel ["guild"; "owner"; "mention"])
                     else ret VNone) ;;
         ret (channel, content)
       else
         let target := get_owner (bot self) in
         content <- (if truthy critical then lift (getattr target "mention") else ret VNone) ;;
         ret (target, content)) ;;
    let target := fst target_content in
    let content := snd target_content in
    if negb (truthy target)
    then console_log console_warning
           (VStr "Could not determine Discord target to send ERROR log")
    else
      except_Forbidden
        (do_send target content (Some embed) ;;
         do_send target (VStr ("```py" ++ newline ++ exception_string ++ "```")) None).

(** [DelayedLog(level=..., log_message=..., *args, **kwargs)]: [level] is
    always passed by keyword, so any positional argument collides with it;
    [log_message] is [Some] where the call site passes it.  The keyword bag
    kept in the record is stamped with the clock. *)
Definition new_DelayedLog (level : string) (log_message : option value)
  (args : list value) (kwargs : gmap string value) : M DelayedLog :=
  match args with
  | _ :: _ =>
      raise (Builtin (TypeError "__init__() got multiple values for argument 'level'"))
  | [] =>
      bind_kwargs "__init__"
        (match log_message with
         | Some _ => ["self"; "level"; "log_message"]
         | None => ["self"; "level"]
         end) kwargs ;;
      let message :=
        match log_message with
        | Some m => m
        | None => kw_get_default kwargs "log_message" VNone
        end in
      let kwargs := delete "log_message" kwargs in
      utc <- now ;;
      ret {| level := level; message := message; args := [];
             kwargs := <["time" := utc]> kwargs |}
  end.

Definition info (message : value) (args : list value) (kwargs : gmap string value)
  : M unit :=
  bind_kwargs "info" ["self"; "message"] kwargs ;;
  if negb (queue_wait self =? 0)
  then log <- new_DelayedLog "info" (Some message) args kwargs ;; queue_put log
  else handle_generic_log message "info" console_info args kwargs.

Definition debug (message : value) (args : list value) (kwargs : gmap string value)
  : M unit :=
  bind_kwargs "debug" ["self"; "message"] kwargs ;;
  if negb (debug_mode self) then ret tt
  else if negb (queue_wait self =? 0)
  then log <- new_DelayedLog "debug" (Some message) args kwargs ;; queue_put log
  else handle_generic_log message "debug" console_debug args kwargs.

Definition warning (message : value) (args : list value) (kwargs : gmap string value)
  : M unit :=
  bind_kwargs "warning" ["self"; "message"] kwargs ;;
  if negb (queue_wait self =? 0)
  then log <- new_DelayedLog "warning" (Some message) args kwargs ;; queue_put log
  else handle_generic_log message "warning" console_warning args kwargs.

Definition event (event_type : value) (args : list value) (kwargs : gmap string value)
  : M unit :=
  bind_kwargs "event" ["self"; "event_type"] kwargs ;;
  if negb (queue_wait self =? 0)
  then
    let kwargs := <["event_type" := event_type]> kwargs in
    log <- new_DelayedLog "event" None args kwargs ;; queue_put log
  else handle_event_log event_type args kwargs.

Definition error (message : value) (args : list value) (kwargs : gmap string value)
  : M unit :=
  bind_kwargs "error" ["self"; "message"] kwargs ;;
  if negb (queue_wait self =? 0)
  then log <- new_DelayedLog "error" (Some message) args kwargs ;; queue_put log
  else handle_error_log message args kwargs.

(** A [DelayedLog] instance is truthy, so [if not log_data] never fires. *)
Definition handle_queue_log : M unit :=
  log_data <- queue_get ;;
  if String.eqb (level log_data) "info"
  then handle_generic_log (message log_data) "info" console_info
         (args log_data) (kwargs log_data)
  else if String.eqb (level log_data) "debug"
  then handle_generic_log (message log_data) "debug" console_debug
         (args log_data) (kwargs log_data)
  else if String.eqb (level log_data) "warning"
  then handle_generic_log (message log_data) "warning" console_warning
         (args log_data) (kwargs log_data)
  else if String.eqb (level log_data) "event"
  then
    let event_type := kw_get_default (kwargs log_data) "event_type" VNone in
    let popped := delete "event_type" (kwargs log_data) in
    if negb (truthy event_type)
    then raise (Builtin (AttributeError "Unable to get event_type from event log data"))
    else handle_event_log event_type (args log_data) popped
  else if String.eqb (level log_data) "error"
  then handle_error_log (message log_data) (args log_data) (kwargs log_data)
  else console_log console_warning
         (VStr ("Received unprocessable log level: " ++ level log_data)).

(** One turn of the [while True] loop of [log_from_queue]. *)
Definition log_from_queue_turn : M unit :=
  except_Exception handle_queue_log
    (fun exception =>
       console_log console_error
         (VStr ("Could not read from log queue: " ++ exn_str exception))) ;;
  sleep (queue_wait self).

(** The loop, cut after [turns] turns.  It ends earlier only by leaving the
    turn abnormally: parked on the empty queue, or on an error the
    [except Exception] clause does not take. *)
Fixpoint log_from_queue (turns : nat) : M unit :=
  match turns with
  | O => ret tt
  | S turns' => log_from_queue_turn ;; log_from_queue turns'
  end.

End Model.

Arguments Done {A} a.
Arguments Raised {A} e.
Arguments Parked {A}.

(** ** Vocabulary of the statements *)

(** A call of one of the five leveled logging methods of [BotLogger]. *)
Inductive Call : Type :=
| Info (message : value) (args : list value) (kwargs : gmap string value)
| Debug (message : value) (args : list value) (kwargs : gmap string value)
| Warning (message : value) (args : list value) (kwargs : gmap string value)
| Error (message : value) (args : list value) (kwargs : gmap string value)
| Event (event_type : value) (args : list value) (kwargs : gmap string value).

Definition call_kwargs (c : Call) : gmap string value :=
  match c with
  | Info _ _ kw | Debug _ _ kw | Warning _ _ kw | Error _ _ kw | Event _ _ kw => kw
  end.

Definition run_call (rt : Runtime) (self : BotLogger) (c : Call) : M unit :=
  match c with
  | Info m a kw => info rt self m a kw
  | Debug m a kw => debug rt self m a kw
  | Warning m a kw => warning rt self m a kw
  | Error m a kw => error rt self m a kw
  | Event t a kw => event rt self t a kw
  end.

(** The send attempts made between the worlds [w] and [w']. *)
Definition new_sent (w w' : World) : list SendAttempt :=
  skipn (List.length (sent w)) (sent w').

(** The embed of an attempt, when it carries one, is stamped [t]. *)
Definition stamped (t : value) (a : SendAttempt) : Prop :=
  forall embed, sa_embed a = Some embed -> timestamp embed = Some t.

(** The severity-to-colour table of the specification. *)
Definition level_colors : list (string * Color) :=
  [ ("info", green); ("debug", dark_green); ("warning", gold);
    ("error", red); ("event", blurple) ].

(** A concrete interpreter for the closed examples: sets iterate in
    insertion order and the clock reads 100, 101, ... *)
Definition example_runtime : Runtime :=
  {| py_repr := fun v => "<" ++ type_name v ++ ">";
     int_of_str := fun _ => None;
     set_iter := fun l => l;
     set_iter_perm := fun l => Permutation_refl l;
     format_exception := fun _ => "Traceback (most recent call last):";
     utcnow := fun n => VInt (100 + Z.of_nat n) |}.

Definition empty_world : World :=
  {| console := []; sent := []; clock_reads := 0; send_queue := [] |}.

(** The entry [get_object_diff] keeps for [attr], if any. *)
Definition diff_entry (before_obj after_obj : value) (attr : string) : option DiffData :=
  let before_value := getattr_default before_obj attr VNone in
  let after_value := getattr_default after_obj attr VNone in
  if truthy after_value && truthy before_value && py_ne before_value after_value
  then Some {| before := before_value; after := after_value |}
  else None.

(** No two elements of the list are equal under [==]. *)
Fixpoint distinct (l : list value) : bool :=
  match l with
  | [] => true
  | x :: l' => negb (set_mem x l') && distinct l'
  end.

(** [embed] with further fields appended. *)
Definition with_fields (embed : Embed) (more : list Field) : Embed :=
  {| title := title embed; description := description embed; color := color embed;
     timestamp := timestamp embed; fields := (fields embed ++ more)%list |}.

(** The world after one more call to the console logger. *)
Definition logged (lvl : ConsoleLevel) (text : string) (w : World) : World :=
  {| console := (console w ++ [(lvl, VStr text)])%list; sent := sent w;
     clock_reads := clock_reads w; send_queue := send_queue w |}.

(** What [render_default_event] returns for [event_type]. *)
Definition default_rendering (rt : Runtime) (event_type : value) : Rendered :=
  (VStr ("New event: " ++ py_str rt event_type),
   Some {| title := "EVENT"; description := VStr ("New event: " ++ py_str rt event_type);
           color := blurple; timestamp := None; fields := [] |}).

(** Which default a call's handler passes to the routing decision:
    [is_error=True] for [error], [is_error=False] for the other four. *)
Definition is_error_call (c : Call) : bool :=
  match c with
  | Error _ _ _ => true
  | _ => false
  end.

(** The shape of what a handler run from [w] leaves behind: the attempts it
    added all carry embeds stamped [t]; all but the last were delivered; and
    the outcome follows the last one: a normal return when it was delivered
    or refused with [Forbidden], its failure otherwise.  With no attempt at
    all the outcome is not a [Forbidden]. *)
Definition delivery (t : value) (w : World) (rw : outcome unit * World) : Prop :=
  exists new,
    sent (snd rw) = (sent w ++ new)%list
    /\ Forall (stamped t) new
    /\ ((new = [] /\ forall e, fst rw = Raised e -> is_Forbidden e = false)
        \/ exists pre a,
            new = (pre ++ [a])%list
            /\ Forall (fun x => sa_outcome x = None) pre
            /\ fst rw = match sa_outcome a with
                        | None => Done tt
                        | Some e => if is_Forbidden e then Done tt else Raised e
                        end).

(** A client for the closed examples: channel 42 exists, the owner resolves,
    and every send ends as [send_result] says. *)
Definition example_owner : value := VObj 7 "User" "owner#0001" [("mention", VStr "<@7>")].

Definition example_bot (send_result : option exn) : Bot :=
  {| get_channel :=
       fun n =>
         if n =? 42
         then VObj 42 "TextChannel" "logs"
                [("guild", VObj 1 "Guild" "home" [("owner", example_owner)])]
         else VNone;
     get_owner := example_owner;
     target_send := fun _ _ _ => send_result |}.

Definition example_logger (queue_wait : Z) (send_result : option exn) : BotLogger :=
  {| bot := example_bot send_result; debug_mode := false; queue_wait := queue_wait;
     send := VBool true |}.

(** The keyword bag [send=True, time=5]. *)
Definition example_kwargs : gmap string value :=
  <["send" := VBool true]> (<["time" := VInt 5]> ∅).

(** The world once the head of the queue has been taken. *)
Definition dequeued (w : World) : World :=
  {| console := console w; sent := sent w; clock_reads := clock_reads w;
     send_queue := tl (send_queue w) |}.

(** An exception object, as [error] receives it. *)
Definition example_exception : value :=
  VObj 9 "ValueError" "bad value" [("__traceback__", VNone)].

(** A client on which nothing resolves: no channel and no owner. *)
Definition unresolved_bot : Bot :=
  {| get_channel := fun _ => VNone; get_owner := VNone; target_send := fun _ _ _ => None |}.

Definition unresolved_logger : BotLogger :=
  {| bot := unresolved_bot; debug_mode := false; queue_wait := 0; send := VBool true |}.

(** A member as the gateway reports it, and a member-update payload in
    which nothing changed. *)
Definition example_member : value :=
  VObj 5 "Member" "bob#0002"
    [ ("id", VInt 5);
      ("guild", VObj 1 "Guild" "home" [("name", VStr "home"); ("id", VInt 1)]);
      ("nick", VStr "bob"); ("status", VStr "online") ].

Definition example_member_update : gmap string value :=
  <["before" := example_member]> (<["after" := example_member]> ∅).

(** The body of the loop of [get_object_diff], as a step function on the
    dict built so far. *)
Definition diff_step (before_obj after_obj : value)
  (result : list (string * DiffData)) (attr : string) : list (string * DiffData) :=
  let after_value := getattr_default after_obj attr VNone in
  if negb (truthy after_value) then result
  else
    let before_value := getattr_default before_obj attr VNone in
    if negb (truthy before_value) then result
    else if py_ne before_value after_value
         then dict_set attr
                (munchify {| before := before_value; after := after_value |}) result
         else result.

(** [w'] is [w] after more console records, more send attempts and more
    clock readings, with the same queue. *)
Definition extends (w w' : World) : Prop :=
  send_queue w' = send_queue w
  /\ (exists more, console w' = (console w ++ more)%list)
  /\ (exists new, sent w' = (sent w ++ new)%list)
  /\ (clock_reads w <= clock_reads w')%nat.

(** A computation that leaves the queue alone and never parks. *)
Definition keeps_queue {A} (m : M A) : Prop :=
  forall w, extends w (snd (m w)) /\ fst (m w) <> Parked.

(** Whether a call reaches the enqueueing branch at all: [debug] returns
    first when debug mode is off. *)
Definition enqueues (self : BotLogger) (c : Call) : bool :=
  match c with
  | Debug _ _ _ => debug_mode self
  | _ => true
  end.

(** The positional arguments [*args] of a call. *)
Definition call_args (c : Call) : list value :=
  match c with
  | Info _ a _ | Debug _ a _ | Warning _ a _ | Error _ a _ | Event _ a _ => a
  end.

(** The parameter names a keyword of the call would collide with: those of
    the logging method and those of [DelayedLog.__init__]. *)
Definition reserved_keys (c : Call) : list string :=
  match c with
  | Event _ _ _ => ["self"; "event_type"; "level"; "log_message"]
  | _ => ["self"; "message"; "level"; "log_message"]
  end.

(** The [DelayedLog] a queued call builds when the clock reads [t]. *)
Definition record_of (c : Call) (t : value) : DelayedLog :=
  match c with
  | Info m _ kw =>
      {| level := "info"; message := m; args := []; kwargs := <["time" := t]> kw |}
  | Debug m _ kw =>
      {| level := "debug"; message := m; args := []; kwargs := <["time" := t]> kw |}
  | Warning m _ kw =>
      {| level := "warning"; message := m; args := []; kwargs := <["time" := t]> kw |}
  | Error m _ kw =>
      {| level := "error"; message := m; args := []; kwargs := <["time" := t]> kw |}
  | Event event_type _ kw =>
      {| level := "event"; message := VNone; args := [];
         kwargs := <["time" := t]> (<["event_type" := event_type]> kw) |}
  end.

(** The world after one more reading of the clock. *)
Definition ticked (w : World) : World :=
  {| console := console w; sent := sent w; clock_reads := S (clock_reads w);
     send_queue := send_queue w |}.

(** The world after [DelayedLog.__init__] has read the clock and [log] has
    been put on the queue. *)
Definition enqueued (w : World) (log : DelayedLog) : World :=
  {| console := console w; sent := sent w; clock_reads := S (clock_reads w);
     send_queue := (send_queue w ++ [log])%list |}.

(** The handler of a call, run on the call's keywords with [time] set to [t]. *)
Definition handle_direct (rt : Runtime) (self : BotLogger) (c : Call) (t : value) : M unit :=
  match c with
  | Info m _ kw => handle_generic_log rt self m "info" console_info [] (<["time" := t]> kw)
  | Debug m _ kw => handle_generic_log rt self m "debug" console_debug [] (<["time" := t]> kw)
  | Warning m _ kw =>
      handle_generic_log rt self m "warning" console_warning [] (<["time" := t]> kw)
  | Error m _ kw => handle_error_log rt self m [] (<["time" := t]> kw)
  | Event event_type _ kw => handle_event_log rt self event_type [] (<["time" := t]> kw)
  end.

(** The event type of an [event] call is truthy. *)
Definition event_type_ok (c : Call) : bool :=
  match c with
  | Event event_type _ _ => truthy event_type
  | _ => true
  end.

(** The same call with no positional arguments. *)
Definition without_args (c : Call) : Call :=
  match c with
  | Info m _ kw => Info m [] kw
  | Debug m _ kw => Debug m [] kw
  | Warning m _ kw => Warning m [] kw
  | Error m _ kw => Error m [] kw
  | Event t _ kw => Event t [] kw
  end.

(** [self.bot.get_channel(int(channel_id)) if channel_id else None], as a
    value or the error [int] raises. *)
Definition resolve_channel (rt : Runtime) (self : BotLogger) (channel_id : value)
  : res value :=
  if truthy channel_id
  then let? n := py_int rt channel_id in Ok (get_channel (bot self) n)
  else Ok VNone.

(** The world after [console(message)]: one more console record holding the
    message as it was passed. *)
Definition recorded (lvl : ConsoleLevel) (msg : value) (w : World) : World :=
  {| console := (console w ++ [(lvl, msg)])%list; sent := sent w;
     clock_reads := clock_reads w; send_queue := send_queue w |}.

(** The keywords the event renderers read their payload from. *)
Definition payload_keys : list string :=
  ["context"; "ctx"; "message"; "before"; "after"; "messages"; "reaction"; "user";
   "reactions"; "channel_"; "guild"; "member"; "role"].

(** The [content] of the first message of an error record: the owner's
    mention when [critical] is truthy, nothing otherwise. *)
Definition error_content (self : BotLogger) (critical channel : value) : res value :=
  if truthy critical
  then (if truthy channel
        then getattr_path channel ["guild"; "owner"; "mention"]
        else getattr (get_owner (bot self)) "mention")
  else Ok VNone.

(** The send attempts of an error record: the embed, then, when that send
    succeeds, the traceback in a code block. *)
Definition error_attempts (self : BotLogger) (target content : value) (embed : Embed)
  (text : string) : list SendAttempt :=
  let block := VStr ("```py" ++ newline ++ text ++ "```") in
  let first := target_send (bot self) target content (Some embed) in
  {| sa_target := target; sa_content := content; sa_embed := Some embed;
     sa_outcome := first |}
  :: match first with
     | None => [ {| sa_target := target; sa_content := block; sa_embed := None;
                    sa_outcome := target_send (bot self) target block None |} ]
     | Some _ => []
     end.

(** Every error a send raises derives from [Exception]. *)
Definition send_failures_are_exceptions (self : BotLogger) : Prop :=
  forall target content embed e,
    target_send (bot self) target content embed = Some e -> is_Exception e = true.

(** A computation that raises nothing outside [Exception]. *)
Definition raises_exceptions_only {A} (m : M A) : Prop :=
  forall w e, fst (m w) = Raised e -> is_Exception e = true.

(** A queued [info] record, and a queue holding two of them. *)
Definition example_record : DelayedLog :=
  {| level := "info"; message := VStr "m"; args := []; kwargs := example_kwargs |}.

Definition example_backlog : World :=
  {| console := []; sent := []; clock_reads := 0;
     send_queue := [example_record; example_record] |}.

(** The keyword bag of a critical error routed to channel 42. *)
Definition example_error_kwargs : gmap string value :=
  <["exception" := example_exception]>
    (<["critical" := VBool true]> (<["channel" := VInt 42]> example_kwargs)).

(** A queued logger on a client whose every send fails with an HTTP error. *)
Definition failing_logger : BotLogger :=
  example_logger 5 (Some (OtherException "HTTPException" "500 Internal Server Error")).

(** ** Properties of the embed factory *)

(** C3 (as amended): [generate_log_embed] lowercases the level before it
    compares it.  When the lowercased level is one of the five names, the
    result is the container with that name uppercased as title, the colour
    of the table, the message as description, no timestamp and no fields;
    for every other input it raises [ValueError("invalid log level
    provided")]. *)
Theorem generate_log_embed_by_lowercased_level (message : value) (level : string) :
  generate_log_embed message level =
    match assoc (lower level) level_colors with
    | Some c =>
        Ok {| title := upper (lower level); description := message; color := c;
              timestamp := None; fields := [] |}
    | None => Raise (ValueError "invalid log level provided")
    end
  /\ Forall
       (fun lc =>
          generate_log_embed message (fst lc)
          = Ok {| title := upper (fst lc); description := message; color := snd lc;
                  timestamp := None; fields := [] |})
       level_colors.
Proof.
  split.
  - unfold generate_log_embed, level_colors; simpl assoc.
    repeat match goal with
           | |- context [String.eqb (lower level) ?s] =>
               destruct (String.eqb_spec (lower level) s) as [-> | _]; [reflexivity |]
           end.
    reflexivity.
  - repeat constructor.
Qed.

(** C3 (as stated) fails: "INFO" is not one of the five level names, and the
    factory returns the info container for it instead of raising. *)
Lemma generate_log_embed_accepts_uppercase :
  ~ In "INFO" ["info"; "debug"; "warning"; "error"; "event"]
  /\ generate_log_embed (VStr "m") "INFO"
     = Ok {| title := "INFO"; description := VStr "m"; color := green;
             timestamp := None; fields := [] |}.
Proof.
  split; [| reflexivity].
  simpl; intuition discriminate.
Qed.

(** ** Properties of the diff engine *)

Lemma assoc_dict_set {A} (k k' : string) (v : A) (d : list (string * A)) :
  assoc k (dict_set k' v d) = if String.eqb k k' then Some v else assoc k d.
Proof.
  induction d as [| [k0 v0] d IH]; simpl.
  - reflexivity.
  - destruct (String.eqb_spec k' k0) as [-> | Hne]; simpl.
    + destruct (String.eqb k k0); reflexivity.
    + rewrite IH.
      destruct (String.eqb_spec k k0) as [-> | _]; [| reflexivity].
      destruct (String.eqb_spec k0 k') as [<- | _]; [contradiction | reflexivity].
Qed.

Lemma get_object_diff_fold (before_obj after_obj : value) (attrs : list string)
  (acc : list (string * DiffData)) (attr : string) :
  assoc attr
    (fold_left
       (fun result attr =>
          let after_value := getattr_default after_obj attr VNone in
          if negb (truthy after_value) then result
          else
            let before_value := getattr_default before_obj attr VNone in
            if negb (truthy before_value) then result
            else if py_ne before_value after_value
                 then dict_set attr
                        (munchify {| before := before_value; after := after_value |}) result
                 else result)
       attrs acc)
  = match (if existsb (String.eqb attr) attrs then diff_entry before_obj after_obj attr
           else None) with
    | Some d => Some d
    | None => assoc attr acc
    end.
Proof.
  revert acc; induction attrs as [| a attrs IH]; intros acc; simpl.
  - reflexivity.
  - rewrite IH; clear IH.
    destruct (String.eqb_spec attr a) as [<- | Hne]; simpl.
    + unfold diff_entry.
      destruct (truthy (getattr_default after_obj attr VNone)); simpl;
        [| destruct (existsb _ attrs); reflexivity].
      destruct (truthy (getattr_default before_obj attr VNone)); simpl;
        [| destruct (existsb _ attrs); reflexivity].
      destruct (py_ne _ _); simpl; [| destruct (existsb _ attrs); reflexivity].
      rewrite assoc_dict_set, String.eqb_refl.
      destruct (existsb _ attrs); reflexivity.
    + destruct (existsb (String.eqb attr) attrs);
        [destruct (diff_entry before_obj after_obj attr); [reflexivity |] |];
        (destruct (truthy (getattr_default after_obj a VNone)); simpl; [| reflexivity];
         destruct (truthy (getattr_default before_obj a VNone)); simpl; [| reflexivity];
         destruct (py_ne _ _); [| reflexivity];
         rewrite assoc_dict_set;
         destruct (String.eqb_spec attr a); [contradiction | reflexivity]).
Qed.

(** C4: for every pair of snapshots, attribute list and attribute name, the
    diff holds an entry under the name exactly when the name is in the list,
    the after-value is truthy, the before-value is truthy and the two are
    unequal; the entry then holds both values.  A missing attribute reads as
    [None], so it is left out, and the function is total: it never raises. *)
Theorem get_object_diff_inclusion (before_obj after_obj : value)
  (attrs_to_check : list string) (attr : string) :
  let before_value := getattr_default before_obj attr VNone in
  let after_value := getattr_default after_obj attr VNone in
  (assoc attr (get_object_diff before_obj after_obj attrs_to_check)
   = if existsb (String.eqb attr) attrs_to_check
        && truthy after_value && truthy before_value && py_ne before_value after_value
     then Some {| before := before_value; after := after_value |}
     else None)
  /\ ((exists d, assoc attr (get_object_diff before_obj after_obj attrs_to_check) = Some d)
      <-> (In attr attrs_to_check /\ truthy after_value = true
           /\ truthy before_value = true /\ py_eq before_value after_value = false))
  /\ (assoc attr (attrs_of before_obj) = None \/ assoc attr (attrs_of after_obj) = None ->
      assoc attr (get_object_diff before_obj after_obj attrs_to_check) = None).
Proof.
  intros before_value after_value.
  assert (Heq : assoc attr (get_object_diff before_obj after_obj attrs_to_check)
                = if existsb (String.eqb attr) attrs_to_check
                     && truthy after_value && truthy before_value
                     && py_ne before_value after_value
                  then Some {| before := before_value; after := after_value |}
                  else None).
  { unfold get_object_diff. rewrite get_object_diff_fold. unfold diff_entry.
    fold before_value after_value.
    destruct (existsb _ attrs_to_check); simpl; [| reflexivity].
    destruct (truthy after_value && truthy before_value && py_ne before_value after_value);
      reflexivity. }
  assert (Hin : existsb (String.eqb attr) attrs_to_check = true <-> In attr attrs_to_check).
  { rewrite existsb_exists. split.
    - intros [x [Hx Hxe]]. apply String.eqb_eq in Hxe. subst x. exact Hx.
    - intros Hx. exists attr. split; [exact Hx | apply String.eqb_refl]. }
  split; [exact Heq |]. split.
  - rewrite Heq. unfold py_ne. split.
    + intros [d Hd].
      destruct (existsb _ attrs_to_check) eqn:E1; [| discriminate].
      destruct (truthy after_value) eqn:E2; [| discriminate].
      destruct (truthy before_value) eqn:E3; [| discriminate].
      destruct (py_eq before_value after_value) eqn:E4; [discriminate |].
      repeat split; try reflexivity. apply Hin. reflexivity.
    + intros (H1 & H2 & H3 & H4). apply Hin in H1. rewrite H1, H2, H3, H4. simpl. eauto.
  - rewrite Heq. unfold before_value, after_value, getattr_default.
    intros [H | H]; rewrite H; simpl.
    + rewrite andb_false_r. reflexivity.
    + rewrite andb_false_r. reflexivity.
Qed.

(** [==] restricted to hashable values is an equivalence, which is what
    lets a list stand for a set. *)
Lemma py_eq_hashable (x y : value) :
  py_eq x y = true -> hashable y = true -> hashable x = true.
Proof. destruct x, y; simpl; intros; try reflexivity; discriminate. Qed.

Lemma py_eq_sym (x y : value) :
  hashable x = true -> hashable y = true -> py_eq x y = py_eq y x.
Proof.
  destruct x, y; simpl; intros; try reflexivity; try discriminate.
  - destruct b, b0; reflexivity.
  - apply Z.eqb_sym.
  - destruct (String.eqb_spec s s0), (String.eqb_spec s0 s); congruence.
  - apply Z.eqb_sym.
Qed.

Lemma py_eq_trans (x y z : value) :
  hashable y = true -> py_eq x y = true -> py_eq y z = true -> py_eq x z = true.
Proof.
  destruct x, y, z; simpl; intros Hy Hxy Hyz; try reflexivity; try discriminate;
    repeat match goal with
           | H : Bool.eqb _ _ = true |- _ => apply Bool.eqb_prop in H; subst
           | H : (_ =? _)%string = true |- _ => apply String.eqb_eq in H; subst
           | H : (_ =? _)%Z = true |- _ => apply Z.eqb_eq in H; subst
           end;
    try (apply Bool.eqb_reflx); try (apply Z.eqb_refl); try (apply String.eqb_refl);
    try (destruct b; destruct b0; simpl in *; congruence).
Qed.

Lemma set_mem_compat (x y : value) (s : list value) :
  forallb hashable s = true -> hashable y = true -> py_eq x y = true ->
  set_mem x s = set_mem y s.
Proof.
  intros Hs Hy Hxy. pose proof (py_eq_hashable _ _ Hxy Hy) as Hx.
  induction s as [| a s IH]; simpl in *; [reflexivity |].
  apply andb_prop in Hs as [Ha Hs]. rewrite (IH Hs). f_equal.
  destruct (py_eq x a) eqn:Exa, (py_eq y a) eqn:Eya; try reflexivity.
  - rewrite (py_eq_sym x y Hx Hy) in Hxy.
    rewrite (py_eq_trans y x a Hx Hxy Exa) in Eya. discriminate.
  - rewrite (py_eq_trans x y a Hy Hxy Eya) in Exa. discriminate.
Qed.

Lemma set_mem_app (x : value) (s t : list value) :
  set_mem x (s ++ t) = set_mem x s || set_mem x t.
Proof. unfold set_mem. apply existsb_app. Qed.

Lemma forallb_app_hashable (s t : list value) :
  forallb hashable (s ++ t) = forallb hashable s && forallb hashable t.
Proof. apply forallb_app. Qed.

Lemma distinct_snoc (s : list value) (a : value) :
  forallb hashable s = true -> hashable a = true ->
  distinct s = true -> set_mem a s = false -> distinct (s ++ [a]) = true.
Proof.
  intros Hs Ha Hd Hm. induction s as [| b s IH]; simpl in *; [reflexivity |].
  apply andb_prop in Hs as [Hb Hs]. apply andb_prop in Hd as [Hbs Hd].
  apply orb_false_elim in Hm as [Hab Hm].
  rewrite set_mem_app, (IH Hs Hd Hm). simpl.
  rewrite (py_eq_sym b a Hb Ha), Hab, !orb_false_r.
  rewrite Hbs. reflexivity.
Qed.

Lemma set_add_all_spec (xs s : list value) :
  forallb hashable xs = true -> forallb hashable s = true -> distinct s = true ->
  exists s', set_add_all s xs = Ok s'
             /\ forallb hashable s' = true /\ distinct s' = true
             /\ forall x, set_mem x s' = set_mem x s || set_mem x xs.
Proof.
  revert s; induction xs as [| a xs IH]; intros s Hxs Hs Hd; simpl in *.
  - exists s. repeat split; try assumption. intros x. rewrite orb_false_r. reflexivity.
  - apply andb_prop in Hxs as [Ha Hxs]. unfold set_add. rewrite Ha. simpl.
    destruct (set_mem a s) eqn:Em.
    + destruct (IH s Hxs Hs Hd) as (s' & E & H1 & H2 & H3).
      exists s'. repeat split; try assumption. intros x. rewrite H3.
      destruct (py_eq x a) eqn:Exa; simpl; [| reflexivity].
      rewrite (set_mem_compat x a s Hs Ha Exa), Em. reflexivity.
    + assert (Hs' : forallb hashable (s ++ [a]) = true).
      { rewrite forallb_app_hashable, Hs. simpl. rewrite Ha. reflexivity. }
      destruct (IH (s ++ [a])%list Hxs Hs' (distinct_snoc s a Hs Ha Hd Em))
        as (s' & E & H1 & H2 & H3).
      exists s'. repeat split; try assumption. intros x. rewrite H3, set_mem_app. simpl.
      rewrite orb_false_r, orb_assoc. reflexivity.
Qed.

Lemma set_mem_filter (x : value) (a b : list value) :
  forallb hashable a = true -> forallb hashable b = true ->
  set_mem x (List.filter (fun y => negb (set_mem y b)) a)
  = set_mem x a && negb (set_mem x b).
Proof.
  intros Ha Hb. induction a as [| y a IH]; simpl in *; [reflexivity |].
  apply andb_prop in Ha as [Hy Ha]. specialize (IH Ha).
  destruct (set_mem y b) eqn:Eyb; simpl; rewrite IH.
  - destruct (py_eq x y) eqn:Exy; simpl; [| reflexivity].
    rewrite (set_mem_compat x y b Hb Hy Exy), Eyb. simpl. rewrite andb_false_r. reflexivity.
  - destruct (py_eq x y) eqn:Exy; simpl; [| reflexivity].
    rewrite (set_mem_compat x y b Hb Hy Exy), Eyb. reflexivity.
Qed.

Lemma forallb_filter_hashable (f : value -> bool) (a : list value) :
  forallb hashable a = true -> forallb hashable (List.filter f a) = true.
Proof.
  induction a as [| y a IH]; simpl; [reflexivity |]. intros H.
  apply andb_prop in H as [Hy Ha]. destruct (f y); simpl; [rewrite Hy |]; auto.
Qed.

Lemma set_mem_filter_le (f : value -> bool) (x : value) (a : list value) :
  set_mem x (List.filter f a) = true -> set_mem x a = true.
Proof.
  induction a as [| y a IH]; simpl; [auto |].
  destruct (f y); simpl; intros H.
  - apply orb_prop in H as [H | H]; [rewrite H; reflexivity |].
    rewrite (IH H). apply orb_true_r.
  - rewrite (IH H). apply orb_true_r.
Qed.

Lemma distinct_filter (f : value -> bool) (a : list value) :
  distinct a = true -> distinct (List.filter f a) = true.
Proof.
  induction a as [| y a IH]; simpl; [reflexivity |]. intros H.
  apply andb_prop in H as [Hy Ha]. destruct (f y); simpl; [| auto].
  rewrite (IH Ha), andb_true_r.
  destruct (set_mem y (List.filter f a)) eqn:E; [| reflexivity].
  apply set_mem_filter_le in E. rewrite E in Hy. discriminate.
Qed.

Lemma distinct_app (s t : list value) :
  distinct s = true -> distinct t = true ->
  (forall x, In x s -> set_mem x t = false) ->
  distinct (s ++ t) = true.
Proof.
  intros Hs Ht Hst. induction s as [| a s IH]; simpl in *; [exact Ht |].
  apply andb_prop in Hs as [Ha Hs].
  rewrite set_mem_app, (IH Hs) by (intros; apply Hst; auto).
  rewrite (Hst a) by auto. rewrite orb_false_r, Ha. reflexivity.
Qed.

Lemma set_symdiff_spec (a b : list value) :
  forallb hashable a = true -> forallb hashable b = true ->
  distinct a = true -> distinct b = true ->
  distinct (set_symdiff a b) = true
  /\ forall x, set_mem x (set_symdiff a b) = xorb (set_mem x a) (set_mem x b).
Proof.
  intros Ha Hb Da Db. unfold set_symdiff. split.
  - apply distinct_app; try (apply distinct_filter; assumption).
    intros x Hx. apply filter_In in Hx as [Hxa Hxb].
    rewrite set_mem_filter by assumption.
    apply negb_true_iff in Hxb.
    assert (set_mem x a = true) as ->.
    { unfold set_mem. apply existsb_exists. exists x. split; [exact Hxa |].
      rewrite forallb_forall in Ha. specialize (Ha x Hxa).
      destruct x; simpl in *; try reflexivity; try discriminate;
        auto using Bool.eqb_reflx, Z.eqb_refl, String.eqb_refl. }
    rewrite andb_false_r. reflexivity.
  - intros x. rewrite set_mem_app, !set_mem_filter by assumption.
    destruct (set_mem x a), (set_mem x b); reflexivity.
Qed.

Lemma add_fields_fold (new_fields : list Field) (embed : Embed) :
  fold_left (fun e f => add_field e (name f) (fvalue f)) new_fields embed
  = with_fields embed new_fields.
Proof.
  revert embed; induction new_fields as [| f fs IH]; intros embed; simpl.
  - destruct embed; unfold with_fields; simpl. rewrite app_nil_r. reflexivity.
  - rewrite IH. unfold with_fields, add_field; simpl.
    destruct f; simpl. rewrite <- app_assoc. reflexivity.
Qed.

Lemma py_set_list (xs : list value) :
  forallb hashable xs = true ->
  exists s, py_set (VList xs) = Ok s
            /\ forallb hashable s = true /\ distinct s = true
            /\ forall x, set_mem x s = set_mem x xs.
Proof.
  intros H. destruct (set_add_all_spec xs [] H eq_refl eq_refl) as (s & E & H1 & H2 & H3).
  exists s. unfold py_set. simpl. repeat split; assumption.
Qed.

(** Building a set from a list with an unhashable element raises. *)
Lemma set_add_all_unhashable (xs s : list value) :
  forallb hashable xs = false ->
  set_add_all s xs = Raise (TypeError "unhashable type: 'list'").
Proof.
  revert s. induction xs as [| x xs IH]; intros s H; simpl in *; [discriminate |].
  unfold set_add. destruct x; try (cbn [hashable andb rbind] in *; apply IH, H).
  reflexivity.
Qed.

Lemma diff_entry_fields_unhashable (rt : Runtime) (attr : string)
  (before_list after_list : list value) :
  forallb hashable before_list && forallb hashable after_list = false ->
  diff_entry_fields rt attr {| before := VList before_list; after := VList after_list |}
  = Raise (TypeError "unhashable type: 'list'").
Proof.
  intros H. unfold diff_entry_fields, py_set. cbn [before after py_len py_iter rbind].
  destruct (forallb hashable after_list) eqn:Ha.
  - destruct (set_add_all_spec after_list [] Ha eq_refl eq_refl) as (sa & -> & _).
    cbn [rbind]. rewrite andb_true_r in H.
    rewrite (set_add_all_unhashable before_list [] H). reflexivity.
  - rewrite (set_add_all_unhashable after_list [] Ha). reflexivity.
Qed.

Lemma set_add_all_raises_TypeError (xs s : list value) (e : py_error) :
  set_add_all s xs = Raise e -> exists msg, e = TypeError msg.
Proof.
  revert s. induction xs as [| x xs IH]; intros s; simpl; [discriminate |].
  unfold set_add. destruct (hashable x); cbn [rbind]; [apply IH |].
  intros [= <-]. eauto.
Qed.

(** The loop body raises nothing but [TypeError]. *)
Lemma diff_entry_fields_raises_TypeError (rt : Runtime) (attr : string)
  (diff_data : DiffData) (e : py_error) :
  diff_entry_fields rt attr diff_data = Raise e -> exists msg, e = TypeError msg.
Proof.
  unfold diff_entry_fields, py_set.
  destruct (before diff_data) as [| | | | before_list |]; try discriminate.
  cbn [py_len py_iter rbind].
  destruct (after diff_data) as [| | | s | after_list |]; cbn [py_len py_iter rbind];
    try (intros [= <-]; eauto; fail).
  - destruct (set_add_all [] (map VStr (str_chars s))) eqn:Ea; cbn [rbind].
    + destruct (set_add_all [] before_list) eqn:Eb; cbn [rbind]; [discriminate |].
      intros [= <-]. eapply set_add_all_raises_TypeError, Eb.
    + intros [= <-]. eapply set_add_all_raises_TypeError, Ea.
  - destruct (set_add_all [] after_list) eqn:Ea; cbn [rbind].
    + destruct (set_add_all [] before_list) eqn:Eb; cbn [rbind]; [discriminate |].
      intros [= <-]. eapply set_add_all_raises_TypeError, Eb.
    + intros [= <-]. eapply set_add_all_raises_TypeError, Ea.
Qed.

Lemma add_diff_fields_unhashable_entry (rt : Runtime) (embed : Embed)
  (diff : list (string * DiffData)) (attr : string) (before_list after_list : list value) :
  In (attr, {| before := VList before_list; after := VList after_list |}) diff ->
  forallb hashable before_list && forallb hashable after_list = false ->
  exists msg, add_diff_fields rt embed diff = Raise (TypeError msg).
Proof.
  intros Hin Hu. revert embed.
  induction diff as [| [attr' diff_data] diff IH]; intros embed; [destruct Hin |].
  cbn [add_diff_fields].
  destruct (diff_entry_fields rt attr' diff_data) as [fs | e] eqn:E; cbn [rbind].
  - destruct Hin as [[= -> ->] | Hin]; [| apply IH, Hin].
    rewrite (diff_entry_fields_unhashable rt attr before_list after_list Hu) in E.
    discriminate.
  - destruct (diff_entry_fields_raises_TypeError rt attr' diff_data e E) as [msg ->].
    eauto.
Qed.

(** C5 (as amended): for an entry whose before- and after-values are both
    lists of hashable elements, the loop body adds exactly one field, named
    "<ATTR> added" when the after-list is longer and "<ATTR> removed"
    otherwise, whose value joins with commas the string forms of the
    symmetric difference of the two lists taken as sets (each element once,
    in the iteration order of that set); for an entry whose before-value is
    not a list it adds "<ATTR> (before)" and "<ATTR> (after)" with the raw
    values; and [add_diff_fields] appends the fields of the entries in the
    order of the diff, raising what the first failing entry raises.  An entry
    whose two lists hold an unhashable element adds no field: the loop body
    raises [TypeError], and so does [add_diff_fields] on every diff that
    holds such an entry. *)
Theorem add_diff_fields_entries (rt : Runtime) :
  (forall attr before_list after_list,
      forallb hashable before_list = true -> forallb hashable after_list = true ->
      exists list_diff,
        diff_entry_fields rt attr {| before := VList before_list; after := VList after_list |}
        = Ok [ {| name := upper attr ++ " "
                          ++ (if (List.length before_list <? List.length after_list)%nat
                              then "added" else "removed");
                  fvalue := VStr (join "," (map (py_str rt) (set_iter rt list_diff))) |} ]
        /\ distinct list_diff = true
        /\ forall x, set_mem x list_diff
                     = xorb (set_mem x after_list) (set_mem x before_list))
  /\ (forall attr diff_data,
         (forall l, before diff_data <> VList l) ->
         diff_entry_fields rt attr diff_data
         = Ok [ {| name := upper attr ++ " (before)"; fvalue := before diff_data |};
                {| name := upper attr ++ " (after)"; fvalue := after diff_data |} ])
  /\ (forall embed diff,
         add_diff_fields rt embed diff
         = let? new_fields := rmap (fun entry => diff_entry_fields rt (fst entry) (snd entry)) diff in
           Ok (with_fields embed (concat new_fields)))
  /\ (forall attr before_list after_list,
         forallb hashable before_list && forallb hashable after_list = false ->
         diff_entry_fields rt attr
           {| before := VList before_list; after := VList after_list |}
         = Raise (TypeError "unhashable type: 'list'"))
  /\ (forall embed diff attr before_list after_list,
         In (attr, {| before := VList before_list; after := VList after_list |}) diff ->
         forallb hashable before_list && forallb hashable after_list = false ->
         exists msg, add_diff_fields rt embed diff = Raise (TypeError msg)).
Proof.
  split; [| split; [| split; [| split]]].
  - intros attr before_list after_list Hb Ha.
    destruct (py_set_list after_list Ha) as (sa & Ea & Ha1 & Ha2 & Ha3).
    destruct (py_set_list before_list Hb) as (sb & Eb & Hb1 & Hb2 & Hb3).
    destruct (set_symdiff_spec sa sb Ha1 Hb1 Ha2 Hb2) as [Hd Hm].
    exists (set_symdiff sa sb). split; [| split].
    + unfold diff_entry_fields. cbn [before after py_len rbind]. rewrite Ea, Eb.
      cbn [rbind].
      replace (Z.of_nat (List.length before_list) <? Z.of_nat (List.length after_list))
        with (List.length before_list <? List.length after_list)%nat; [reflexivity |].
      destruct (Nat.ltb_spec (List.length before_list) (List.length after_list));
        symmetry; [apply Z.ltb_lt | apply Z.ltb_ge]; lia.
    + exact Hd.
    + intros x. rewrite Hm, Ha3, Hb3. reflexivity.
  - intros attr diff_data Hnl. unfold diff_entry_fields.
    destruct (before diff_data) eqn:E; try reflexivity.
    exfalso. exact (Hnl xs eq_refl).
  - intros embed diff. revert embed.
    induction diff as [| [attr diff_data] diff IH]; intros embed; simpl.
    + unfold with_fields. destruct embed; simpl. rewrite app_nil_r. reflexivity.
    + destruct (diff_entry_fields rt attr diff_data) as [fs | e]; simpl; [| reflexivity].
      rewrite add_fields_fold, IH.
      destruct (rmap _ diff) as [fss | e]; simpl; [| reflexivity].
      unfold with_fields; simpl. rewrite <- app_assoc. reflexivity.
  - apply diff_entry_fields_unhashable.
  - apply add_diff_fields_unhashable_entry.
Qed.

(** The list examples of the specification, on [example_runtime]:
    before=[1,2], after=[1,2,3] gives one field "ROLES added" with value "3". *)
Lemma add_diff_fields_entries_witness :
  exists list_diff,
    diff_entry_fields example_runtime "roles"
      {| before := VList [VInt 1; VInt 2]; after := VList [VInt 1; VInt 2; VInt 3] |}
    = Ok [ {| name := upper "roles" ++ " "
                      ++ (if (List.length [VInt 1; VInt 2]
                              <? List.length [VInt 1; VInt 2; VInt 3])%nat
                          then "added" else "removed");
              fvalue := VStr (join "," (map (py_str example_runtime)
                                          (set_iter example_runtime list_diff))) |} ]
    /\ distinct list_diff = true
    /\ forall x, set_mem x list_diff
                 = xorb (set_mem x [VInt 1; VInt 2; VInt 3]) (set_mem x [VInt 1; VInt 2]).
Proof.
  apply (proj1 (add_diff_fields_entries example_runtime)); reflexivity.
Defined.

(** C5 (as stated) fails: the before-value is a list and the after-list is
    longer, yet no field is added; building the set raises [TypeError],
    because the elements of the lists are themselves lists. *)
Lemma add_diff_fields_unhashable_elements :
  let before_obj := VObj 1 "Member" "a" [("roles", VList [VList [VInt 1]])] in
  let after_obj := VObj 1 "Member" "a" [("roles", VList [VList [VInt 1]; VList [VInt 2]])] in
  let diff_data :=
    {| before := VList [VList [VInt 1]]; after := VList [VList [VInt 1]; VList [VInt 2]] |} in
  get_object_diff before_obj after_obj ["roles"] = [("roles", diff_data)]
  /\ diff_entry_fields example_runtime "roles" diff_data
     = Raise (TypeError "unhashable type: 'list'")
  /\ add_diff_fields example_runtime (LogEmbed EventEmbed (VStr "m")) [("roles", diff_data)]
     = Raise (TypeError "unhashable type: 'list'").
Proof. repeat split; reflexivity. Qed.

(** ** Properties of event rendering *)

Lemma render_default_event_ok (rt : Runtime) (event_type : value) (args : list value)
  (kwargs : gmap string value) :
  render_default_event rt args (<["event_type" := event_type]> kwargs)
  = Ok (default_rendering rt event_type).
Proof.
  unfold render_default_event, kw_get, kw_get_default.
  rewrite lookup_insert_eq. reflexivity.
Qed.

Lemma generate_event_data_cases (rt : Runtime) (event_type : value)
  (args : list value) (kwargs : gmap string value) (w : World) :
  generate_event_data rt event_type args kwargs w
  = match assoc ("render_" ++ py_str rt event_type ++ "_event") (renderers rt) with
    | None => (Done (default_rendering rt event_type), w)
    | Some render_func =>
        match render_func args (<["event_type" := event_type]> kwargs) with
        | Ok rendered => (Done rendered, w)
        | Raise e =>
            (Done (default_rendering rt event_type),
             logged console_error
               ("Could not render event data: " ++ error_str e ++ " (using default render)")
               w)
        end
    end.
Proof.
  unfold generate_event_data, lookup_renderer, except_Exception.
  destruct (assoc _ (renderers rt)) as [render_func |].
  - destruct (render_func args _) as [rendered | e]; [reflexivity |].
    cbn [lift raise is_Exception]. rewrite render_default_event_ok. reflexivity.
  - rewrite render_default_event_ok. reflexivity.
Qed.

(** C6: [generate_event_data] returns in every case, for every event type
    and keyword bag.  With no renderer registered under
    [render_<event_type>_event] the result is the default rendering,
    "New event: <event_type>"; when the renderer found returns, the result
    is what it returned; when it raises, one error record goes to the
    console and the result is the default rendering. *)
Theorem generate_event_data_never_raises (rt : Runtime) (event_type : value)
  (args : list value) (kwargs : gmap string value) (w : World) :
  (exists rendered w', generate_event_data rt event_type args kwargs w = (Done rendered, w'))
  /\ generate_event_data rt event_type args kwargs w
     = match assoc ("render_" ++ py_str rt event_type ++ "_event") (renderers rt) with
       | None => (Done (default_rendering rt event_type), w)
       | Some render_func =>
           match render_func args (<["event_type" := event_type]> kwargs) with
           | Ok rendered => (Done rendered, w)
           | Raise e =>
               (Done (default_rendering rt event_type),
                logged console_error
                  ("Could not render event data: " ++ error_str e
                   ++ " (using default render)") w)
           end
       end
  /\ fst (default_rendering rt event_type) = VStr ("New event: " ++ py_str rt event_type).
Proof.
  split; [| split; [apply generate_event_data_cases | reflexivity]].
  rewrite generate_event_data_cases.
  destruct (assoc _ (renderers rt)) as [render_func |]; [| eauto].
  destruct (render_func args _); eauto.
Qed.

Lemma render_reaction_clear_event_raises (rt : Runtime) (args : list value)
  (kwargs : gmap string value) :
  exists e, render_reaction_clear_event rt args kwargs = Raise e.
Proof.
  unfold render_reaction_clear_event.
  repeat match goal with
         | |- exists e, rbind (getattr (VStr _) _) _ = Raise e => eexists; reflexivity
         | |- exists e, rbind ?r _ = Raise e =>
             destruct r; cbn [rbind]; [| eexists; reflexivity]
         end.
Qed.

(** C10: whatever the payload, [render_reaction_clear_event] raises; it is
    the renderer [generate_event_data] selects for "reaction_clear", so the
    result for that event type is always the default rendering, with summary
    "New event: reaction_clear", and the failure is reported on the console. *)
Theorem reaction_clear_renders_default (rt : Runtime) (args : list value)
  (kwargs : gmap string value) (w : World) :
  (exists e, render_reaction_clear_event rt args kwargs = Raise e)
  /\ assoc ("render_" ++ py_str rt (VStr "reaction_clear") ++ "_event") (renderers rt)
     = Some (render_reaction_clear_event rt)
  /\ exists e,
       generate_event_data rt (VStr "reaction_clear") args kwargs w
       = (Done (VStr "New event: reaction_clear",
                Some {| title := "EVENT"; description := VStr "New event: reaction_clear";
                        color := blurple; timestamp := None; fields := [] |}),
          logged console_error
            ("Could not render event data: " ++ error_str e ++ " (using default render)") w).
Proof.
  split; [apply render_reaction_clear_event_raises |].
  split; [reflexivity |].
  destruct (render_reaction_clear_event_raises rt args
              (<["event_type" := VStr "reaction_clear"]> kwargs)) as [e He].
  exists e. rewrite generate_event_data_cases.
  change (assoc _ (renderers rt)) with (Some (render_reaction_clear_event rt)).
  cbv beta iota. rewrite He. reflexivity.
Qed.

(** ** Properties of delivery *)

Lemma bind_kwargs_run (func : string) (params : list string) (kwargs : gmap string value)
  (w : World) :
  bind_kwargs func params kwargs w = (Done tt, w)
  \/ exists e, bind_kwargs func params kwargs w = (Raised (Builtin e), w).
Proof.
  unfold bind_kwargs. destruct (find _ params); [right | left]; eauto.
Qed.

Lemma lookup_channel_run (rt : Runtime) (self : BotLogger) (channel_id : value) (w : World) :
  (exists channel, lookup_channel rt self channel_id w = (Done channel, w))
  \/ exists e, lookup_channel rt self channel_id w = (Raised (Builtin e), w).
Proof.
  unfold lookup_channel. destruct (truthy channel_id); [| left; eauto].
  unfold bind, lift. destruct (py_int rt channel_id); [left | right]; eauto.
Qed.

Lemma delivery_nothing (t : value) (w w' : World) (r : outcome unit) :
  sent w' = sent w -> (forall e, r = Raised e -> is_Forbidden e = false) ->
  delivery t w (r, w').
Proof.
  intros Hs Hr. exists []. simpl. rewrite app_nil_r. split; [exact Hs |].
  split; [constructor |]. left. split; [reflexivity | exact Hr].
Qed.


Lemma delivery_send_embed (self : BotLogger) (t : value) (w0 w : World)
  (target content : value) (embed : Embed) :
  sent w = sent w0 -> timestamp embed = Some t ->
  delivery t w0 (except_Forbidden (do_send self target content (Some embed)) w).
Proof.
  intros Hs Ht. unfold except_Forbidden, do_send.
  set (a := {| sa_target := target; sa_content := content; sa_embed := Some embed;
               sa_outcome := target_send (bot self) target content (Some embed) |}).
  assert (Hst : Forall (stamped t) [a]).
  { constructor; [| constructor]. intros e [= <-]. exact Ht. }
  assert (Hlast : forall r,
             r = match sa_outcome a with
                 | None => Done tt
                 | Some e => if is_Forbidden e then Done tt else Raised e
                 end ->
             delivery t w0
               (r, {| console := console w; sent := (sent w ++ [a])%list;
                      clock_reads := clock_reads w; send_queue := send_queue w |})).
  { intros r Hr. exists [a]. simpl. rewrite Hs.
    split; [reflexivity |]. split; [exact Hst |].
    right. exists [], a. split; [reflexivity |]. split; [constructor | exact Hr]. }
  subst a. cbn [sa_outcome] in Hlast.
  destruct (target_send (bot self) target content (Some embed)) as [e |].
  - destruct (is_Forbidden e); apply Hlast; reflexivity.
  - apply Hlast; reflexivity.
Qed.

Ltac nothing_sent :=
  apply delivery_nothing;
  [ reflexivity
  | first [ discriminate | intros ? [= <-]; reflexivity ] ].

Ltac run_bind_kwargs :=
  unfold bind at 1;
  match goal with
  | |- context [bind_kwargs ?f ?ps ?kw ?w] =>
      destruct (bind_kwargs_run f ps kw w) as [-> | [? ->]]; [| nothing_sent]
  end.

Ltac run_lookup_channel :=
  unfold bind at 1;
  match goal with
  | |- context [lookup_channel ?rt ?self ?c ?w] =>
      destruct (lookup_channel_run rt self c w) as [[? ->] | [? ->]]; [| nothing_sent]
  end.

Ltac run_lift :=
  unfold bind at 1;
  match goal with
  | |- context [lift ?r] => destruct r; cbn [lift ret raise]; [| nothing_sent]
  end.

Lemma handle_generic_log_delivery (rt : Runtime) (self : BotLogger) (message : value)
  (level_ : string) (console : ConsoleLevel) (args : list value)
  (kwargs : gmap string value) (w : World) :
  delivery (kw_get_default kwargs "time" (utcnow rt (clock_reads w))) w
    (handle_generic_log rt self message level_ console args kwargs w).
Proof.
  unfold handle_generic_log.
  run_bind_kwargs.
  unfold bind at 1. cbn [console_log].
  destruct (_is_console_only self kwargs false); [nothing_sent |].
  run_lookup_channel.
  destruct (negb _); [nothing_sent |].
  run_lift.
  unfold bind at 1. cbn [now].
  apply delivery_send_embed; reflexivity.
Qed.

Lemma generate_event_data_run (rt : Runtime) (event_type : value) (args : list value)
  (kwargs : gmap string value) (w : World) :
  exists rendered w',
    generate_event_data rt event_type args kwargs w = (Done rendered, w')
    /\ sent w' = sent w /\ clock_reads w' = clock_reads w.
Proof.
  rewrite generate_event_data_cases.
  destruct (assoc _ (renderers rt)) as [f |]; [| eauto].
  destruct (f args _); eauto.
Qed.

Lemma handle_event_log_delivery (rt : Runtime) (self : BotLogger) (event_type : value)
  (args : list value) (kwargs : gmap string value) (w : World) :
  delivery (kw_get_default kwargs "time" (utcnow rt (clock_reads w))) w
    (handle_event_log rt self event_type args kwargs w).
Proof.
  unfold handle_event_log.
  run_bind_kwargs.
  unfold bind at 1.
  destruct (generate_event_data_run rt event_type args kwargs w)
    as (rendered & w1 & -> & Hs & Hc).
  destruct (negb (truthy (fst rendered))).
  { apply delivery_nothing; [exact Hs | discriminate]. }
  unfold bind at 1. cbn [console_log].
  destruct (_is_console_only self kwargs false).
  { apply delivery_nothing; [exact Hs | discriminate]. }
  unfold bind at 1.
  match goal with
  | |- context [lookup_channel ?rt ?self ?c ?w] =>
      destruct (lookup_channel_run rt self c w) as [[? ->] | [? ->]]
  end.
  2:{ apply delivery_nothing; [exact Hs | intros ? [= <-]; reflexivity]. }
  destruct (negb _).
  { apply delivery_nothing; [exact Hs | discriminate]. }
  destruct (snd rendered) as [embed |].
  2:{ apply delivery_nothing; [exact Hs | discriminate]. }
  unfold bind at 1. cbn [now clock_reads]. rewrite <- Hc.
  apply delivery_send_embed; [exact Hs | reflexivity].
Qed.

Lemma delivery_send_two (self : BotLogger) (t : value) (w0 w : World)
  (target content text : value) (embed : Embed) :
  sent w = sent w0 -> timestamp embed = Some t ->
  delivery t w0
    (except_Forbidden
       (bind (do_send self target content (Some embed))
          (fun _ => do_send self target text None)) w).
Proof.
  intros Hs Ht. unfold except_Forbidden, bind, do_send.
  set (a1 := {| sa_target := target; sa_content := content; sa_embed := Some embed;
                sa_outcome := target_send (bot self) target content (Some embed) |}).
  set (a2 := {| sa_target := target; sa_content := text; sa_embed := None;
                sa_outcome := target_send (bot self) target text None |}).
  assert (H1 : stamped t a1) by (intros e [= <-]; exact Ht).
  assert (H2 : stamped t a2) by (intros e [=]).
  assert (Hone : forall r,
             r = match sa_outcome a1 with
                 | None => Done tt
                 | Some e => if is_Forbidden e then Done tt else Raised e
                 end ->
             delivery t w0
               (r, {| console := console w; sent := (sent w ++ [a1])%list;
                      clock_reads := clock_reads w; send_queue := send_queue w |})).
  { intros r Hr. exists [a1]. simpl. rewrite Hs.
    split; [reflexivity |]. split; [repeat constructor; assumption |].
    right. exists [], a1. split; [reflexivity |]. split; [constructor | exact Hr]. }
  assert (Htwo : forall r,
             sa_outcome a1 = None ->
             r = match sa_outcome a2 with
                 | None => Done tt
                 | Some e => if is_Forbidden e then Done tt else Raised e
                 end ->
             delivery t w0
               (r, {| console := console w; sent := ((sent w ++ [a1]) ++ [a2])%list;
                      clock_reads := clock_reads w; send_queue := send_queue w |})).
  { intros r Ho Hr. exists [a1; a2]. simpl. rewrite Hs, <- app_assoc.
    split; [reflexivity |]. split; [repeat constructor; assumption |].
    right. exists [a1], a2. split; [reflexivity |].
    split; [repeat constructor; exact Ho | exact Hr]. }
  subst a1 a2. cbn [sa_outcome] in Hone, Htwo.
  destruct (target_send (bot self) target content (Some embed)) as [e |].
  - destruct (is_Forbidden e); apply Hone; reflexivity.
  - cbn [sent console clock_reads send_queue].
    destruct (target_send (bot self) target text None) as [e |].
    + destruct (is_Forbidden e); apply Htwo; reflexivity.
    + apply Htwo; reflexivity.
Qed.

Lemma handle_error_log_delivery (rt : Runtime) (self : BotLogger) (message : value)
  (args : list value) (kwargs : gmap string value) (w : World) :
  delivery (kw_get_default kwargs "time" (utcnow rt (clock_reads w))) w
    (handle_error_log rt self message args kwargs w).
Proof.
  unfold handle_error_log.
  run_bind_kwargs.
  unfold bind at 1. cbn [console_log].
  destruct (_is_console_only self kwargs true); [nothing_sent |].
  run_lift.
  run_lift.
  unfold bind at 1. cbn [now].
  run_lookup_channel.
  unfold bind at 1. cbn [console sent clock_reads send_queue].
  match goal with
  | |- context [(if truthy ?x then ?m1 else ?m2) ?w1] =>
      assert (Htc : (exists tc, (if truthy x then m1 else m2) w1 = (Done tc, w1))
                    \/ exists e, (if truthy x then m1 else m2) w1 = (Raised (Builtin e), w1));
      [| destruct Htc as [[tc ->] | [? ->]]; [| nothing_sent]]
  end.
  { destruct (truthy _); destruct (truthy (kw_get kwargs "critical"));
      unfold bind, lift, ret, raise;
      try (left; eexists; reflexivity);
      match goal with
      | |- context [match ?r with Ok _ => _ | Raise _ => _ end] => destruct r
      end; [left | right | left | right]; eexists; reflexivity. }
  destruct (negb _); [nothing_sent |].
  apply delivery_send_two; reflexivity.
Qed.

Lemma delivery_ext (t : value) (w w0 : World) (rw : outcome unit * World) :
  sent w = sent w0 -> delivery t w rw -> delivery t w0 rw.
Proof. unfold delivery. intros <-. exact (fun H => H). Qed.

Lemma new_sent_app (w w' : World) (new : list SendAttempt) :
  sent w' = (sent w ++ new)%list -> new_sent w w' = new.
Proof.
  intros H. unfold new_sent. rewrite H.
  rewrite skipn_app, skipn_all, Nat.sub_diag. reflexivity.
Qed.

Lemma run_call_delivery (rt : Runtime) (self : BotLogger) (c : Call) (w : World) :
  queue_wait self = 0 ->
  delivery (kw_get_default (call_kwargs c) "time" (utcnow rt (clock_reads w))) w
    (run_call rt self c w).
Proof.
  intros Hq. destruct c; cbn [run_call call_kwargs];
    unfold info, debug, warning, error, event; run_bind_kwargs;
    rewrite Hq; cbn [Z.eqb negb].
  - apply handle_generic_log_delivery.
  - destruct (debug_mode self); cbn [negb]; [| nothing_sent].
    apply handle_generic_log_delivery.
  - apply handle_generic_log_delivery.
  - apply handle_error_log_delivery.
  - apply handle_event_log_delivery.
Qed.

(** C7: in the non-queued path no [discord.Forbidden] ever leaves a logging
    call, and for every send attempt of the call that failed: when the
    failure is [Forbidden] the call returns normally, and when it is of any
    other class the call raises exactly that failure. *)
Theorem forbidden_swallowed_others_propagate (rt : Runtime) (self : BotLogger)
  (c : Call) (w : World) :
  queue_wait self = 0 ->
  (forall e, fst (run_call rt self c w) = Raised e -> is_Forbidden e = false)
  /\ (forall a e,
         In a (new_sent w (snd (run_call rt self c w))) -> sa_outcome a = Some e ->
         fst (run_call rt self c w) = if is_Forbidden e then Done tt else Raised e).
Proof.
  intros Hq.
  destruct (run_call_delivery rt self c w Hq) as (new & Hs & _ & Hcase).
  rewrite (new_sent_app _ _ _ Hs).
  destruct Hcase as [[-> Hr] | (pre & a0 & -> & Hpre & Hr)].
  - split; [exact Hr |]. intros a e [].
  - split.
    + intros e He. rewrite Hr in He.
      destruct (sa_outcome a0) as [e0 |]; [| discriminate].
      destruct (is_Forbidden e0) eqn:Ef; [discriminate |].
      injection He as <-. exact Ef.
    + intros a e Hin Ha. apply in_app_or in Hin as [Hin | [<- | []]].
      * rewrite List.Forall_forall in Hpre. rewrite (Hpre a Hin) in Ha. discriminate.
      * rewrite Hr, Ha. reflexivity.
Qed.

(** ** Properties of the queued path *)

Lemma new_DelayedLog_run (rt : Runtime) (level : string) (log_message : option value)
  (args : list value) (kw : gmap string value) (w : World) :
  (exists log w',
      new_DelayedLog rt level log_message args kw w = (Done log, w')
      /\ kwargs log !! "time" = Some (utcnow rt (clock_reads w))
      /\ sent w' = sent w /\ send_queue w' = send_queue w)
  \/ exists e, new_DelayedLog rt level log_message args kw w = (Raised e, w).
Proof.
  unfold new_DelayedLog. destruct args; [| right; eexists; reflexivity].
  unfold bind.
  match goal with
  | |- context [bind_kwargs ?f ?ps ?kw ?w] =>
      destruct (bind_kwargs_run f ps kw w) as [-> | [? ->]]; [| right; eexists; reflexivity]
  end.
  left. unfold now, ret. do 2 eexists. split; [reflexivity |].
  cbn [kwargs sent send_queue]. rewrite lookup_insert_eq. auto.
Qed.

Lemma enqueue_run (rt : Runtime) (self : BotLogger) (level : string)
  (log_message : option value) (args : list value) (kw : gmap string value)
  (w w1 : World) :
  bind (new_DelayedLog rt level log_message args kw) (queue_put self) w = (Done tt, w1) ->
  sent w1 = sent w
  /\ exists log,
      send_queue w1 = (send_queue w ++ [log])%list
      /\ kwargs log !! "time" = Some (utcnow rt (clock_reads w)).
Proof.
  unfold bind.
  destruct (new_DelayedLog_run rt level log_message args kw w)
    as [(log & w' & -> & Ht & Hs & Hq) | [e ->]]; [| discriminate].
  unfold queue_put. destruct (queue_wait self =? 0); [discriminate |].
  destruct (_ <? _)%nat; [| discriminate].
  intros [= <-]. cbn [sent send_queue]. rewrite Hq. eauto.
Qed.

Lemma handle_queue_log_delivery (rt : Runtime) (self : BotLogger) (w : World)
  (log : DelayedLog) (rest : list DelayedLog) :
  queue_wait self <> 0 -> send_queue w = log :: rest ->
  delivery (kw_get_default (kwargs log) "time" (utcnow rt (clock_reads w))) w
    (handle_queue_log rt self w).
Proof.
  intros Hq Hw. unfold handle_queue_log, bind at 1, queue_get.
  apply Z.eqb_neq in Hq. rewrite Hq, Hw.
  set (w' := {| console := console w; sent := sent w; clock_reads := clock_reads w;
                send_queue := rest |}).
  change (clock_reads w) with (clock_reads w').
  apply (delivery_ext _ w'); [reflexivity |].
  repeat match goal with
         | |- context [String.eqb (level log) ?s] => destruct (String.eqb (level log) s)
         end;
    try apply handle_generic_log_delivery; try apply handle_error_log_delivery.
  - destruct (negb _); [nothing_sent |].
    replace (kw_get_default (kwargs log) "time" (utcnow rt (clock_reads w')))
      with (kw_get_default (delete "event_type" (kwargs log)) "time"
              (utcnow rt (clock_reads w'))).
    + apply handle_event_log_delivery.
    + unfold kw_get_default. rewrite lookup_delete_ne by discriminate. reflexivity.
  - nothing_sent.
Qed.

Lemma stamped_default (kwargs : gmap string value) (t d : value) (new : list SendAttempt) :
  kwargs !! "time" = Some t ->
  Forall (stamped (kw_get_default kwargs "time" d)) new -> Forall (stamped t) new.
Proof. unfold kw_get_default. intros ->. exact (fun H => H). Qed.

(** C1 (as amended): in the non-queued path every embed a call delivers
    carries the caller's [time] option as its timestamp.  In the queued path
    the call itself delivers nothing; the record it enqueues is stamped with
    the clock reading taken at enqueue time, which replaces any [time] the
    caller supplied, and when the drain loop later handles that record every
    embed it delivers carries that reading. *)
Theorem time_option_stamps_embeds (rt : Runtime) (self : BotLogger) (c : Call) :
  (queue_wait self = 0 ->
   forall t w,
     call_kwargs c !! "time" = Some t ->
     Forall (stamped t) (new_sent w (snd (run_call rt self c w))))
  /\ (queue_wait self <> 0 ->
      forall w w1,
        run_call rt self c w = (Done tt, w1) ->
        sent w1 = sent w
        /\ (send_queue w1 = send_queue w
            \/ exists log,
                send_queue w1 = (send_queue w ++ [log])%list
                /\ kwargs log !! "time" = Some (utcnow rt (clock_reads w))
                /\ forall w2 rest,
                    send_queue w2 = log :: rest ->
                    Forall (stamped (utcnow rt (clock_reads w)))
                      (new_sent w2 (snd (handle_queue_log rt self w2))))).
Proof.
  split.
  - intros Hq t w Ht.
    destruct (run_call_delivery rt self c w Hq) as (new & Hs & Hst & _).
    rewrite (new_sent_app _ _ _ Hs). exact (stamped_default _ _ _ _ Ht Hst).
  - intros Hq w w1 Hrun.
    assert (Hdrain : forall log,
               kwargs log !! "time" = Some (utcnow rt (clock_reads w)) ->
               forall w2 rest,
                 send_queue w2 = log :: rest ->
                 Forall (stamped (utcnow rt (clock_reads w)))
                   (new_sent w2 (snd (handle_queue_log rt self w2)))).
    { intros log Ht w2 rest Hw2.
      destruct (handle_queue_log_delivery rt self w2 log rest Hq Hw2) as (new & Hs & Hst & _).
      rewrite (new_sent_app _ _ _ Hs). exact (stamped_default _ _ _ _ Ht Hst). }
    assert (Henq : forall level log_message args kwargs0 w0,
               sent w0 = sent w -> send_queue w0 = send_queue w ->
               clock_reads w0 = clock_reads w ->
               bind (new_DelayedLog rt level log_message args kwargs0) (queue_put self) w0
               = (Done tt, w1) ->
               sent w1 = sent w
               /\ (send_queue w1 = send_queue w
                   \/ exists log,
                       send_queue w1 = (send_queue w ++ [log])%list
                       /\ kwargs log !! "time" = Some (utcnow rt (clock_reads w))
                       /\ forall w2 rest,
                           send_queue w2 = log :: rest ->
                           Forall (stamped (utcnow rt (clock_reads w)))
                             (new_sent w2 (snd (handle_queue_log rt self w2))))).
    { intros level log_message args kwargs0 w0 Hs0 Hq0 Hc0 Hb.
      destruct (enqueue_run _ _ _ _ _ _ _ _ Hb) as (Hs1 & log & Hq1 & Ht).
      rewrite Hs0 in Hs1. rewrite Hq0 in Hq1. rewrite Hc0 in Ht.
      split; [exact Hs1 |]. right. exists log. eauto. }
    apply Z.eqb_neq in Hq.
    destruct c; cbn [run_call] in Hrun;
      unfold info, debug, warning, error, event in Hrun; unfold bind at 1 in Hrun;
      match type of Hrun with
      | context [bind_kwargs ?f ?ps ?kw ?w] =>
          destruct (bind_kwargs_run f ps kw w) as [E | [? E]]; rewrite E in Hrun;
          [| discriminate]
      end;
      rewrite Hq in Hrun; cbn [negb] in Hrun;
      try (eapply Henq; [| | | exact Hrun]; reflexivity).
    destruct (debug_mode self); cbn [negb] in Hrun.
    + eapply Henq; [| | | exact Hrun]; reflexivity.
    + injection Hrun as <-. auto.
Qed.

(** A non-queued [info] call with [time=5] delivers one embed, stamped 5. *)
Lemma time_option_stamps_embeds_witness :
  Forall (stamped (VInt 5))
    (new_sent empty_world
       (snd (run_call example_runtime (example_logger 0 None)
               (Info (VStr "m") [] example_kwargs) empty_world)))
  /\ map (fun a => option_map timestamp (sa_embed a))
       (new_sent empty_world
          (snd (run_call example_runtime (example_logger 0 None)
                  (Info (VStr "m") [] example_kwargs) empty_world)))
     = [Some (Some (VInt 5))].
Proof.
  split.
  - apply (proj1 (time_option_stamps_embeds example_runtime (example_logger 0 None)
                    (Info (VStr "m") [] example_kwargs)));
      reflexivity.
  - vm_compute. reflexivity.
Defined.

(** C1 (as stated) fails in the queued path: [info] is called with
    [time=5] while the clock reads 100; the call enqueues and returns, one
    turn of the drain loop delivers one embed, and its timestamp is 100. *)
Lemma queued_time_option_replaced :
  let self := example_logger 1 None in
  let w1 := snd (info example_runtime self (VStr "m") [] example_kwargs empty_world) in
  let w2 := snd (log_from_queue_turn example_runtime self w1) in
  example_kwargs !! "time" = Some (VInt 5)
  /\ fst (info example_runtime self (VStr "m") [] example_kwargs empty_world) = Done tt
  /\ fst (log_from_queue_turn example_runtime self w1) = Done tt
  /\ map (fun a => option_map timestamp (sa_embed a)) (sent w2) = [Some (Some (VInt 100))].
Proof. vm_compute. repeat split; reflexivity. Qed.

(** A send that ends in [Forbidden]: the call returns; a send that ends in
    another HTTP error: the call raises it. *)
Lemma forbidden_swallowed_others_propagate_witness :
  queue_wait (example_logger 0 (Some (Forbidden "403"))) = 0
  /\ (forall a e,
         In a (new_sent empty_world
                 (snd (run_call example_runtime (example_logger 0 (Some (Forbidden "403")))
                         (Warning (VStr "m") [] example_kwargs) empty_world))) ->
         sa_outcome a = Some e ->
         fst (run_call example_runtime (example_logger 0 (Some (Forbidden "403")))
                (Warning (VStr "m") [] example_kwargs) empty_world)
         = if is_Forbidden e then Done tt else Raised e)
  /\ fst (run_call example_runtime (example_logger 0 (Some (Forbidden "403")))
            (Warning (VStr "m") [] example_kwargs) empty_world) = Done tt
  /\ fst (run_call example_runtime
            (example_logger 0 (Some (OtherException "HTTPException" "500")))
            (Warning (VStr "m") [] example_kwargs) empty_world)
     = Raised (OtherException "HTTPException" "500").
Proof.
  split; [reflexivity |]. split.
  - apply (proj2 (forbidden_swallowed_others_propagate example_runtime
                    (example_logger 0 (Some (Forbidden "403")))
                    (Warning (VStr "m") [] example_kwargs) empty_world eq_refl)).
  - split; vm_compute; reflexivity.
Defined.

(** ** Properties of the drain loop *)

(** C9: when the record at the head of the queue is an event record whose
    keyword bag has no [event_type], handling it raises [AttributeError]
    with the record already taken off the queue; the turn of the loop
    catches it, writes one error record to the console and ends normally;
    and the loop goes on: running it for one more turn than [turns] from
    here is running it for [turns] turns on the rest of the queue. *)
Theorem drain_loop_survives_missing_event_type (rt : Runtime) (self : BotLogger)
  (w : World) (log : DelayedLog) (rest : list DelayedLog) :
  queue_wait self <> 0 ->
  send_queue w = log :: rest ->
  level log = "event" ->
  kwargs log !! "event_type" = None ->
  let w' :=
    logged console_error
      "Could not read from log queue: Unable to get event_type from event log data"
      (dequeued w) in
  handle_queue_log rt self w
  = (Raised (Builtin (AttributeError "Unable to get event_type from event log data")),
     dequeued w)
  /\ log_from_queue_turn rt self w = (Done tt, w')
  /\ send_queue w' = rest
  /\ forall turns, log_from_queue rt self (S turns) w = log_from_queue rt self turns w'.
Proof.
  intros Hq Hw Hl Hk w'.
  assert (H1 : handle_queue_log rt self w
               = (Raised (Builtin (AttributeError
                                     "Unable to get event_type from event log data")),
                  dequeued w)).
  { unfold handle_queue_log, bind, queue_get, dequeued.
    apply Z.eqb_neq in Hq. rewrite Hq, Hw, Hl. cbn [String.eqb Ascii.eqb Bool.eqb tl].
    unfold kw_get_default. rewrite Hk. reflexivity. }
  assert (H2 : log_from_queue_turn rt self w = (Done tt, w')).
  { unfold log_from_queue_turn, bind, except_Exception. rewrite H1. reflexivity. }
  split; [exact H1 |]. split; [exact H2 |]. split.
  - unfold w', logged, dequeued. cbn [send_queue]. rewrite Hw. reflexivity.
  - intros turns. cbn [log_from_queue]. unfold bind at 1. rewrite H2. reflexivity.
Qed.

(** A queue holding an event record without [event_type] and then an info
    record: the first turn logs the error, the second handles the info
    record. *)
Lemma drain_loop_survives_missing_event_type_witness :
  let self := example_logger 1 None in
  let bad := {| level := "event"; message := VNone; args := []; kwargs := ∅ |} in
  let good := {| level := "info"; message := VStr "next"; args := []; kwargs := ∅ |} in
  let w := {| console := []; sent := []; clock_reads := 0; send_queue := [bad; good] |} in
  (forall turns,
      log_from_queue example_runtime self (S turns) w
      = log_from_queue example_runtime self turns
          (logged console_error
             "Could not read from log queue: Unable to get event_type from event log data"
             (dequeued w)))
  /\ log_from_queue example_runtime self 2 w
     = (Done tt,
        {| console :=
             [ (console_error,
                VStr "Could not read from log queue: Unable to get event_type from event log data");
               (console_info, VStr "next") ];
           sent := []; clock_reads := 0; send_queue := [] |}).
Proof.
  split.
  - apply (drain_loop_survives_missing_event_type example_runtime (example_logger 1 None)
             {| console := []; sent := []; clock_reads := 0;
                send_queue :=
                  [ {| level := "event"; message := VNone; args := []; kwargs := ∅ |};
                    {| level := "info"; message := VStr "next"; args := []; kwargs := ∅ |} ] |}
             {| level := "event"; message := VNone; args := []; kwargs := ∅ |}
             [ {| level := "info"; message := VStr "next"; args := []; kwargs := ∅ |} ]);
      [discriminate | reflexivity | reflexivity | reflexivity].
  - vm_compute. reflexivity.
Defined.

(** ** Target resolution for error records *)

(** C2, at the failing input: an error record with [critical=True] when
    neither a channel nor the owner resolves.  [handle_error_log] reads
    [target.mention] off the missing owner before it tests the target, so
    the call raises [AttributeError] and the warning is never logged.  The
    same call without [critical] logs the warning and returns, as the info
    and event calls do. *)
Theorem error_log_unresolved_target_raises :
  let critical_kwargs : gmap string value :=
    <["critical" := VBool true]> (<["exception" := example_exception]> ∅) in
  let plain_kwargs : gmap string value := <["exception" := example_exception]> ∅ in
  error example_runtime unresolved_logger (VStr "boom") [] critical_kwargs empty_world
  = (Raised (Builtin (AttributeError "'NoneType' object has no attribute 'mention'")),
     {| console := [(console_error, VStr "boom")]; sent := []; clock_reads := 1;
        send_queue := [] |})
  /\ error example_runtime unresolved_logger (VStr "boom") [] plain_kwargs empty_world
     = (Done tt,
        {| console :=
             [ (console_error, VStr "boom");
               (console_warning,
                VStr "Could not determine Discord target to send ERROR log") ];
           sent := []; clock_reads := 1; send_queue := [] |})
  /\ info example_runtime unresolved_logger (VStr "hello") [] (<["send" := VBool true]> ∅)
       empty_world
     = (Done tt,
        {| console :=
             [ (console_info, VStr "hello");
               (console_warning,
                VStr "Could not determine Discord target to send info log") ];
           sent := []; clock_reads := 0; send_queue := [] |}).
Proof. vm_compute. repeat split; reflexivity. Qed.


(** ** Properties of routing *)

Lemma handle_generic_log_console_only (rt : Runtime) (self : BotLogger) (message : value)
  (level_ : string) (console : ConsoleLevel) (args : list value)
  (kw : gmap string value) (w : World) :
  _is_console_only self kw false = true ->
  sent (snd (handle_generic_log rt self message level_ console args kw w)) = sent w.
Proof.
  intros Hc. unfold handle_generic_log, bind at 1.
  destruct (bind_kwargs_run "handle_generic_log" ["self"; "message"; "level_"; "console"]
              kw w) as [-> | [? ->]]; [| reflexivity].
  rewrite Hc. reflexivity.
Qed.

Lemma handle_error_log_console_only (rt : Runtime) (self : BotLogger) (message : value)
  (args : list value) (kw : gmap string value) (w : World) :
  _is_console_only self kw true = true ->
  sent (snd (handle_error_log rt self message args kw w)) = sent w.
Proof.
  intros Hc. unfold handle_error_log, bind at 1.
  destruct (bind_kwargs_run "handle_error_log" ["self"; "message"] kw w)
    as [-> | [? ->]]; [| reflexivity].
  rewrite Hc. reflexivity.
Qed.

Lemma handle_event_log_console_only (rt : Runtime) (self : BotLogger) (event_type : value)
  (args : list value) (kw : gmap string value) (w : World) :
  _is_console_only self kw false = true ->
  sent (snd (handle_event_log rt self event_type args kw w)) = sent w.
Proof.
  intros Hc. unfold handle_event_log, bind at 1.
  destruct (bind_kwargs_run "handle_event_log" ["self"; "event_type"] kw w)
    as [-> | [? ->]]; [| reflexivity].
  unfold bind at 1.
  destruct (generate_event_data_run rt event_type args kw w)
    as (rendered & w1 & -> & Hs & _).
  rewrite Hc. destruct (negb _); exact Hs.
Qed.

Lemma console_only_ignores_event_type (self : BotLogger) (kw : gmap string value)
  (is_error : bool) :
  _is_console_only self (delete "event_type" kw) is_error = _is_console_only self kw is_error.
Proof.
  unfold _is_console_only, kw_get_default.
  rewrite lookup_delete_ne by discriminate. reflexivity.
Qed.

(** C8: the routing decision is console-only exactly when the global send
    flag is falsy, or the effective [send] option is falsy, where the
    effective option is the caller's [send] when the bag has one and else the
    default of the level: [False] for info, debug, warning and event, [True]
    for error.  The handlers take the decision with that default, directly
    and from the queue: a record the decision marks console-only is never
    sent. *)
Theorem console_only_decision (rt : Runtime) (self : BotLogger) :
  (forall (kwargs : gmap string value) (is_error : bool),
      _is_console_only self kwargs is_error = true
      <-> truthy (send self) = false
          \/ truthy (match kwargs !! "send" with
                     | Some caller_send => caller_send
                     | None => VBool is_error
                     end) = false)
  /\ DEFAULT_LOG_SEND = false /\ DEFAULT_ERROR_LOG_SEND = true
  /\ (forall c w,
         queue_wait self = 0 ->
         _is_console_only self (call_kwargs c) (is_error_call c) = true ->
         sent (snd (run_call rt self c w)) = sent w)
  /\ (forall w log rest,
         send_queue w = log :: rest ->
         _is_console_only self (kwargs log) (String.eqb (level log) "error") = true ->
         sent (snd (handle_queue_log rt self w)) = sent w).
Proof.
  split; [| split; [reflexivity | split; [reflexivity | split]]].
  - intros kwargs is_error.
    unfold _is_console_only, kw_get_default, DEFAULT_LOG_SEND, DEFAULT_ERROR_LOG_SEND.
    destruct (truthy (send self)); simpl.
    + destruct (kwargs !! "send") as [v |].
      * destruct (truthy v); simpl; intuition discriminate.
      * destruct is_error; simpl; intuition discriminate.
    + intuition.
  - intros c w Hq Hc.
    destruct c as [m a kw | m a kw | m a kw | m a kw | et a kw];
      cbn [run_call call_kwargs is_error_call] in *;
      unfold info, debug, warning, error, event; unfold bind at 1;
      match goal with
      | |- context [bind_kwargs ?f ?ps ?kw ?w] =>
          destruct (bind_kwargs_run f ps kw w) as [-> | [? ->]]; [| reflexivity]
      end;
      rewrite Hq; cbn [Z.eqb negb];
      try (destruct (debug_mode self); cbn [negb]; [| reflexivity]);
      auto using handle_generic_log_console_only, handle_error_log_console_only,
        handle_event_log_console_only.
  - intros w log rest Hw Hc. unfold handle_queue_log, bind at 1, queue_get.
    destruct (queue_wait self =? 0); [reflexivity |]. rewrite Hw.
    set (w' := {| console := console w; sent := sent w; clock_reads := clock_reads w;
                  send_queue := rest |}).
    change (sent w) with (sent w').
    repeat match goal with
           | |- context [String.eqb (level log) ?s] =>
               destruct (String.eqb_spec (level log) s) as [E | _];
               [try rewrite E in Hc; cbn [String.eqb Ascii.eqb Bool.eqb] in Hc |]
           end;
      auto using handle_generic_log_console_only, handle_error_log_console_only.
    destruct (negb _); [reflexivity |].
    apply handle_event_log_console_only.
    rewrite console_only_ignores_event_type. exact Hc.
Qed.

(** An [info] call without a [send] option is console-only: the console
    gets the message and nothing is sent. *)
Lemma console_only_decision_witness :
  _is_console_only (example_logger 0 None) ∅ false = true
  /\ sent (snd (run_call example_runtime (example_logger 0 None)
                  (Info (VStr "m") [] ∅) empty_world))
     = sent empty_world
  /\ console (snd (run_call example_runtime (example_logger 0 None)
                     (Info (VStr "m") [] ∅) empty_world))
     = [(console_info, VStr "m")].
Proof.
  split; [reflexivity |]. split.
  - apply (proj1 (proj2 (proj2 (proj2
             (console_only_decision example_runtime (example_logger 0 None)))))
             (Info (VStr "m") [] ∅) empty_world);
      reflexivity.
  - vm_compute. reflexivity.
Defined.

(** The diff examples of the specification: a changed name is reported with
    both values; a role list that was empty before is left out. *)
Example get_object_diff_examples :
  get_object_diff (VObj 1 "Member" "a" [("name", VStr "A")])
    (VObj 1 "Member" "a" [("name", VStr "B")]) ["name"]
  = [("name", {| before := VStr "A"; after := VStr "B" |})]
  /\ get_object_diff (VObj 1 "Member" "a" [("roles", VList [])])
       (VObj 1 "Member" "a" [("roles", VList [VInt 1])]) ["roles"]
     = [].
Proof. split; reflexivity. Qed.

(** ** Further properties of the specification *)

Lemma bind_kwargs_free (func : string) (params : list string) (kw : gmap string value)
  (w : World) :
  Forall (fun p => kw !! p = None) params -> bind_kwargs func params kw w = (Done tt, w).
Proof.
  intros H. unfold bind_kwargs.
  replace (find _ params) with (@None string); [reflexivity |].
  symmetry. induction H as [| p ps Hp _ IH]; simpl; [reflexivity |].
  rewrite Hp. exact IH.
Qed.

Lemma str_prefix_length (n : nat) (s : string) :
  String.length (str_prefix n s) = Nat.min n (String.length s).
Proof.
  unfold str_prefix. revert s; induction n as [| n IH]; intros s; simpl.
  - destruct s; reflexivity.
  - destruct s as [| c s]; simpl; [reflexivity |]. rewrite IH. reflexivity.
Qed.

(** X1: with debug mode disabled, [debug] changes nothing: no console
    record, nothing enqueued, nothing sent; and it returns normally. *)
Theorem debug_without_debug_mode_is_noop (rt : Runtime) (self : BotLogger)
  (message : value) (args : list value) (kw : gmap string value) (w : World) :
  debug_mode self = false ->
  snd (debug rt self message args kw w) = w
  /\ (kw !! "self" = None -> kw !! "message" = None ->
      debug rt self message args kw w = (Done tt, w)).
Proof.
  intros Hd. split.
  - unfold debug, bind at 1.
    destruct (bind_kwargs_run "debug" ["self"; "message"] kw w) as [-> | [? ->]];
      [rewrite Hd |]; reflexivity.
  - intros H1 H2. unfold debug, bind at 1.
    rewrite bind_kwargs_free by (repeat constructor; assumption).
    rewrite Hd. reflexivity.
Qed.

(** X2: the member-update renderer builds its summary before it looks at
    the diff.  When none of the five watched attributes yields a diff entry
    there are two cases.  If the server text, [before.id] and
    [before.guild.id] can all be read, the renderer returns [(None, None)]
    and [handle_event_log] emits nothing at all.  If one of them cannot be
    read, the renderer raises, and [generate_event_data] logs one console
    error and falls back to the default rendering. *)
Theorem member_update_without_changes_is_suppressed (rt : Runtime) (self : BotLogger)
  (args : list value) (kw : gmap string value) (w : World) :
  let before := kw_get kw "before" in
  let after := kw_get kw "after" in
  let summary_parts :=
    let? server_text := get_server_text rt before VNone in
    let? id := getattr before "id" in
    let? guild_id := getattr_path before ["guild"; "id"] in
    Ok (server_text, id, guild_id) in
  get_object_diff before after ["avatar_url"; "avatar"; "nick"; "roles"; "status"] = [] ->
  (forall parts,
      summary_parts = Ok parts ->
      render_member_update_event rt args kw = Ok (VNone, None)
      /\ (kw !! "self" = None -> kw !! "event_type" = None ->
          handle_event_log rt self (VStr "member_update") args kw w = (Done tt, w)))
  /\ (forall e,
         summary_parts = Raise e ->
         render_member_update_event rt args kw = Raise e
         /\ generate_event_data rt (VStr "member_update") args kw w
            = (Done (default_rendering rt (VStr "member_update")),
               logged console_error
                 ("Could not render event data: " ++ error_str e
                  ++ " (using default render)") w)).
Proof.
  intros before after summary_parts Hd.
  assert (Hr : forall kw', kw_get kw' "before" = before -> kw_get kw' "after" = after ->
                           render_member_update_event rt args kw'
                           = let? _ := summary_parts in Ok (VNone, None)).
  { intros kw' Hb Ha. unfold render_member_update_event, summary_parts.
    rewrite Hb, Ha, Hd.
    destruct (get_server_text rt before VNone); cbn [rbind]; [| reflexivity].
    destruct (getattr before "id"); cbn [rbind]; [| reflexivity].
    destruct (getattr_path before ["guild"; "id"]); reflexivity. }
  assert (Hins : kw_get (<["event_type" := VStr "member_update"]> kw) "before" = before
                 /\ kw_get (<["event_type" := VStr "member_update"]> kw) "after" = after).
  { split; unfold kw_get, kw_get_default; rewrite lookup_insert_ne by discriminate;
      reflexivity. }
  destruct Hins as [Hb Ha].
  split.
  - intros parts Hp. split; [rewrite Hr, Hp by reflexivity; reflexivity |].
    intros H1 H2. unfold handle_event_log, bind at 1.
    rewrite bind_kwargs_free by (repeat constructor; assumption).
    unfold bind at 1. rewrite generate_event_data_cases.
    change (assoc _ (renderers rt)) with (Some (render_member_update_event rt)).
    cbv beta iota. rewrite (Hr _ Hb Ha), Hp. reflexivity.
  - intros e He. split; [rewrite Hr, He by reflexivity; reflexivity |].
    rewrite generate_event_data_cases.
    change (assoc _ (renderers rt)) with (Some (render_member_update_event rt)).
    cbv beta iota. rewrite (Hr _ Hb Ha), He. reflexivity.
Qed.

Lemma debug_without_debug_mode_is_noop_witness :
  debug example_runtime (example_logger 0 None) (VStr "m") [] ∅ empty_world
  = (Done tt, empty_world).
Proof.
  apply (debug_without_debug_mode_is_noop example_runtime (example_logger 0 None)
           (VStr "m") [] ∅ empty_world); reflexivity.
Defined.

Lemma member_update_without_changes_is_suppressed_witness :
  (render_member_update_event example_runtime [] example_member_update = Ok (VNone, None)
   /\ handle_event_log example_runtime (example_logger 0 None) (VStr "member_update") []
        example_member_update empty_world
      = (Done tt, empty_world))
  /\ generate_event_data example_runtime (VStr "member_update") [] ∅ empty_world
     = (Done (default_rendering example_runtime (VStr "member_update")),
        logged console_error
          ("Could not render event data: 'NoneType' object has no attribute 'id'"
           ++ " (using default render)") empty_world).
Proof.
  split.
  - destruct (member_update_without_changes_is_suppressed example_runtime
                (example_logger 0 None) [] example_member_update empty_world eq_refl)
      as [H _].
    destruct (H ("home (1)", VInt 5, VInt 1) eq_refl) as [H1 H2].
    split; [exact H1 | apply H2; reflexivity].
  - destruct (member_update_without_changes_is_suppressed example_runtime
                (example_logger 0 None) [] ∅ empty_world) as [_ H];
      [vm_compute; reflexivity |].
    destruct (H (AttributeError "'NoneType' object has no attribute 'id'")) as [_ H2];
      [vm_compute; reflexivity | exact H2].
Defined.

(** ** More on the diff engine *)

Lemma dict_set_keys {A} (k : string) (v : A) (d : list (string * A)) :
  map fst (dict_set k v d)
  = if existsb (String.eqb k) (map fst d) then map fst d else (map fst d ++ [k])%list.
Proof.
  induction d as [| [k0 v0] d IH]; simpl; [reflexivity |].
  destruct (String.eqb_spec k k0) as [-> | Hne]; simpl; [reflexivity |].
  rewrite IH. destruct (existsb _ (map fst d)); reflexivity.
Qed.

Lemma existsb_eqb_In (k : string) (l : list string) :
  existsb (String.eqb k) l = true <-> In k l.
Proof.
  rewrite existsb_exists. split.
  - intros [x [Hx Hxe]]. apply String.eqb_eq in Hxe. subst x. exact Hx.
  - intros Hx. exists k. split; [exact Hx | apply String.eqb_refl].
Qed.

Lemma diff_step_keys (before_obj after_obj : value) (acc : list (string * DiffData))
  (attr : string) :
  map fst (diff_step before_obj after_obj acc attr)
  = match diff_entry before_obj after_obj attr with
    | Some _ =>
        if existsb (String.eqb attr) (map fst acc) then map fst acc
        else (map fst acc ++ [attr])%list
    | None => map fst acc
    end.
Proof.
  unfold diff_step, diff_entry.
  destruct (truthy (getattr_default after_obj attr VNone)); simpl; [| reflexivity].
  destruct (truthy (getattr_default before_obj attr VNone)); simpl; [| reflexivity].
  destruct (py_ne _ _); [apply dict_set_keys | reflexivity].
Qed.

Lemma diff_fold_keys_nodup (before_obj after_obj : value) (attrs : list string)
  (acc : list (string * DiffData)) :
  List.NoDup (map fst acc) ->
  List.NoDup (map fst (fold_left (diff_step before_obj after_obj) attrs acc)).
Proof.
  revert acc; induction attrs as [| a attrs IH]; intros acc Hacc; simpl; [exact Hacc |].
  apply IH. rewrite diff_step_keys.
  destruct (diff_entry before_obj after_obj a); [| exact Hacc].
  destruct (existsb _ (map fst acc)) eqn:E; [exact Hacc |].
  apply List.NoDup_app; [exact Hacc | repeat constructor; intros [] | ].
  intros x Hx [<- | []].
  apply existsb_eqb_In in Hx. congruence.
Qed.

Lemma diff_fold_keys_fresh (before_obj after_obj : value) (attrs : list string)
  (acc : list (string * DiffData)) :
  List.NoDup attrs -> (forall a, In a attrs -> ~ In a (map fst acc)) ->
  map fst (fold_left (diff_step before_obj after_obj) attrs acc)
  = (map fst acc
     ++ List.filter (fun a => bool_decide (is_Some (diff_entry before_obj after_obj a))) attrs)%list.
Proof.
  revert acc; induction attrs as [| a attrs IH]; intros acc Hnd Hfresh; simpl.
  - rewrite app_nil_r. reflexivity.
  - inversion Hnd as [| ? ? Ha Hnd']; subst.
    assert (Hna : existsb (String.eqb a) (map fst acc) = false).
    { destruct (existsb _ _) eqn:E; [| reflexivity].
      apply existsb_eqb_In in E. exfalso. apply (Hfresh a); simpl; auto. }
    rewrite IH; [| exact Hnd' |].
    + rewrite diff_step_keys, Hna.
      destruct (diff_entry before_obj after_obj a); simpl; [| reflexivity].
      rewrite <- app_assoc. reflexivity.
    + intros b Hb. rewrite diff_step_keys, Hna.
      destruct (diff_entry before_obj after_obj a).
      * intros Hin. apply in_app_or in Hin as [Hin | [<- | []]].
        -- apply (Hfresh b); simpl; auto.
        -- contradiction.
      * apply Hfresh; simpl; auto.
Qed.

(** X4: the keys of the diff [get_object_diff] returns are pairwise distinct,
    and when the attribute list has no repetition they are exactly the
    attributes that got an entry, in the order of the list. *)
Theorem get_object_diff_keys_follow_attrs (before_obj after_obj : value)
  (attrs_to_check : list string) :
  List.NoDup (map fst (get_object_diff before_obj after_obj attrs_to_check))
  /\ (List.NoDup attrs_to_check ->
      map fst (get_object_diff before_obj after_obj attrs_to_check)
      = List.filter (fun a => bool_decide (is_Some (diff_entry before_obj after_obj a)))
          attrs_to_check).
Proof.
  split.
  - apply (diff_fold_keys_nodup before_obj after_obj attrs_to_check []). constructor.
  - intros Hnd.
    apply (diff_fold_keys_fresh before_obj after_obj attrs_to_check [] Hnd).
    intros a _ [].
Qed.

Lemma get_object_diff_keys_follow_attrs_witness :
  map fst (get_object_diff example_member
             (VObj 5 "Member" "bob#0002" [("nick", VStr "rob"); ("status", VStr "away")])
             ["nick"; "status"; "nick"])
  = ["nick"; "status"]
  /\ map fst (get_object_diff example_member
                (VObj 5 "Member" "bob#0002" [("nick", VStr "rob"); ("status", VStr "online")])
                ["status"; "nick"])
     = ["nick"].
Proof.
  split; [reflexivity |].
  rewrite (proj2 (get_object_diff_keys_follow_attrs example_member
                    (VObj 5 "Member" "bob#0002"
                       [("nick", VStr "rob"); ("status", VStr "online")])
                    ["status"; "nick"])).
  - reflexivity.
  - repeat constructor; cbn; intuition discriminate.
Defined.

Lemma py_eq_refl (x : value) : hashable x = true -> py_eq x x = true.
Proof.
  destruct x; simpl; intros; try reflexivity; try discriminate;
    auto using Bool.eqb_reflx, Z.eqb_refl, String.eqb_refl.
Qed.

Lemma set_mem_self (x : value) (s : list value) :
  forallb hashable s = true -> In x s -> set_mem x s = true.
Proof.
  intros Hs Hx. unfold set_mem. apply existsb_exists. exists x. split; [exact Hx |].
  apply py_eq_refl. rewrite forallb_forall in Hs. exact (Hs x Hx).
Qed.

Lemma filter_none {A} (f : A -> bool) (l : list A) :
  (forall x, In x l -> f x = false) -> List.filter f l = [].
Proof.
  induction l as [| a l IH]; simpl; intros H; [reflexivity |].
  rewrite (H a) by auto. apply IH. auto.
Qed.

(** X5: a list-valued entry whose two lists hold the same hashable elements
    (in another order, or with other multiplicities) still yields one field;
    its value is the empty string and its label is decided by the lengths
    alone: "added" when the after-list is longer, "removed" otherwise. *)
Theorem list_diff_of_equal_sets_is_empty (rt : Runtime) (attr : string)
  (before_list after_list : list value) :
  forallb hashable before_list = true -> forallb hashable after_list = true ->
  (forall x, set_mem x after_list = set_mem x before_list) ->
  diff_entry_fields rt attr {| before := VList before_list; after := VList after_list |}
  = Ok [ {| name := upper attr ++ " "
                    ++ (if (List.length before_list <? List.length after_list)%nat
                        then "added" else "removed");
            fvalue := VStr "" |} ].
Proof.
  intros Hb Ha Hsame.
  destruct (py_set_list after_list Ha) as (sa & Ea & Ha1 & Ha2 & Ha3).
  destruct (py_set_list before_list Hb) as (sb & Eb & Hb1 & Hb2 & Hb3).
  assert (Hempty : set_symdiff sa sb = []).
  { unfold set_symdiff.
    rewrite !filter_none; [reflexivity | |]; intros x Hx; apply negb_false_iff.
    - first [ rewrite Hb3, <- Hsame, <- Ha3 | rewrite Ha3, Hsame, <- Hb3 ];
        apply set_mem_self; assumption.
    - first [ rewrite Hb3, <- Hsame, <- Ha3 | rewrite Ha3, Hsame, <- Hb3 ];
        apply set_mem_self; assumption. }
  unfold diff_entry_fields. cbn [before after py_len rbind]. rewrite Ea, Eb.
  cbn [rbind]. rewrite Hempty.
  pose proof (set_iter_perm rt []) as Hp. apply Permutation_sym, Permutation_nil in Hp.
  rewrite Hp.
  replace (Z.of_nat (List.length before_list) <? Z.of_nat (List.length after_list))
    with (List.length before_list <? List.length after_list)%nat; [reflexivity |].
  destruct (Nat.ltb_spec (List.length before_list) (List.length after_list));
    symmetry; [apply Z.ltb_lt | apply Z.ltb_ge]; lia.
Qed.

Lemma list_diff_of_equal_sets_is_empty_witness :
  diff_entry_fields example_runtime "roles"
    {| before := VList [VInt 1; VInt 2]; after := VList [VInt 2; VInt 1] |}
  = Ok [ {| name := "ROLES removed"; fvalue := VStr "" |} ]
  /\ diff_entry_fields example_runtime "roles"
       {| before := VList [VInt 1]; after := VList [VInt 1; VInt 1] |}
     = Ok [ {| name := "ROLES added"; fvalue := VStr "" |} ].
Proof.
  split.
  - apply (list_diff_of_equal_sets_is_empty example_runtime "roles"
             [VInt 1; VInt 2] [VInt 2; VInt 1]); try reflexivity.
    intros x. simpl. destruct (py_eq x (VInt 2)), (py_eq x (VInt 1)); reflexivity.
  - apply (list_diff_of_equal_sets_is_empty example_runtime "roles"
             [VInt 1] [VInt 1; VInt 1]); try reflexivity.
    intros x. simpl. destruct (py_eq x (VInt 1)); reflexivity.
Defined.

(** ** What the handlers leave alone *)

Lemma extends_refl (w : World) : extends w w.
Proof.
  repeat split; try (exists []; rewrite app_nil_r; reflexivity); lia.
Qed.

Lemma extends_trans (w1 w2 w3 : World) : extends w1 w2 -> extends w2 w3 -> extends w1 w3.
Proof.
  intros (Hq1 & [c1 Hc1] & [s1 Hs1] & Hk1) (Hq2 & [c2 Hc2] & [s2 Hs2] & Hk2).
  repeat split.
  - congruence.
  - exists (c1 ++ c2)%list. rewrite Hc2, Hc1, app_assoc. reflexivity.
  - exists (s1 ++ s2)%list. rewrite Hs2, Hs1, app_assoc. reflexivity.
  - lia.
Qed.

Lemma keeps_ret {A} (a : A) : keeps_queue (ret a).
Proof. intros w. split; [apply extends_refl | discriminate]. Qed.

Lemma keeps_raise {A} (e : exn) : keeps_queue (@raise A e).
Proof. intros w. split; [apply extends_refl | discriminate]. Qed.

Lemma keeps_lift {A} (r : res A) : keeps_queue (lift r).
Proof. destruct r; [apply keeps_ret | apply keeps_raise]. Qed.

Lemma keeps_bind {A B} (m : M A) (k : A -> M B) :
  keeps_queue m -> (forall a, keeps_queue (k a)) -> keeps_queue (bind m k).
Proof.
  intros Hm Hk w. unfold bind. specialize (Hm w).
  destruct (m w) as [[a | e |] w1]; cbn [fst snd] in *.
  - destruct (Hk a w1) as [H1 H2]. split; [| exact H2].
    eapply extends_trans; [apply Hm | exact H1].
  - split; [apply Hm | discriminate].
  - destruct Hm as [_ Hm]. contradiction.
Qed.

Lemma keeps_console_log (lvl : ConsoleLevel) (msg : value) : keeps_queue (console_log lvl msg).
Proof.
  intros w. split; [| discriminate]. repeat split; cbn.
  - eexists; reflexivity.
  - exists []. rewrite app_nil_r. reflexivity.
  - lia.
Qed.

Lemma keeps_now (rt : Runtime) : keeps_queue (now rt).
Proof.
  intros w. split; [| discriminate]. repeat split; cbn;
    try (exists []; rewrite app_nil_r; reflexivity); lia.
Qed.

Lemma keeps_do_send (self : BotLogger) (target content : value) (embed : option Embed) :
  keeps_queue (do_send self target content embed).
Proof.
  intros w. unfold do_send.
  destruct (target_send (bot self) target content embed); (split; [| discriminate]);
    repeat split; cbn; try (eexists; reflexivity);
    try (exists []; rewrite app_nil_r; reflexivity); lia.
Qed.

Lemma keeps_except_Forbidden (body : M unit) :
  keeps_queue body -> keeps_queue (except_Forbidden body).
Proof.
  intros Hb w. unfold except_Forbidden. specialize (Hb w).
  destruct (body w) as [[a | e |] w1]; cbn [fst snd] in *; try exact Hb.
  destruct (is_Forbidden e); (split; [apply Hb | discriminate]).
Qed.

Lemma keeps_except_Exception {A} (body : M A) (handler : exn -> M A) :
  keeps_queue body -> (forall e, keeps_queue (handler e)) ->
  keeps_queue (except_Exception body handler).
Proof.
  intros Hb Hh w. unfold except_Exception. specialize (Hb w).
  destruct (body w) as [[a | e |] w1]; cbn [fst snd] in *; try exact Hb.
  destruct (is_Exception e); [| split; [apply Hb | discriminate]].
  destruct (Hh e w1) as [H1 H2]. split; [| exact H2].
  eapply extends_trans; [apply Hb | exact H1].
Qed.

Lemma keeps_bind_kwargs (func : string) (params : list string) (kw : gmap string value) :
  keeps_queue (bind_kwargs func params kw).
Proof.
  unfold bind_kwargs. destruct (find _ params); [apply keeps_raise | apply keeps_ret].
Qed.

Ltac keeps_step :=
  match goal with
  | |- keeps_queue (ret _) => apply keeps_ret
  | |- keeps_queue (raise _) => apply keeps_raise
  | |- keeps_queue (lift _) => apply keeps_lift
  | |- keeps_queue (console_log _ _) => apply keeps_console_log
  | |- keeps_queue (now _) => apply keeps_now
  | |- keeps_queue (do_send _ _ _ _) => apply keeps_do_send
  | |- keeps_queue (bind_kwargs _ _ _) => apply keeps_bind_kwargs
  | |- keeps_queue (except_Forbidden _) => apply keeps_except_Forbidden
  | |- keeps_queue (except_Exception _ _) => apply keeps_except_Exception; [| intros ?]
  | |- keeps_queue (bind _ _) => apply keeps_bind; [| intros ?]
  | |- keeps_queue (if ?b then _ else _) => destruct b
  | |- keeps_queue (match ?x with _ => _ end) => destruct x
  end.

Ltac keeps := repeat keeps_step.

Lemma keeps_lookup_channel (rt : Runtime) (self : BotLogger) (channel_id : value) :
  keeps_queue (lookup_channel rt self channel_id).
Proof. unfold lookup_channel. keeps. Qed.

Lemma keeps_generate_event_data (rt : Runtime) (event_type : value) (args : list value)
  (kw : gmap string value) :
  keeps_queue (generate_event_data rt event_type args kw).
Proof. unfold generate_event_data. keeps. Qed.

Lemma keeps_handle_generic_log (rt : Runtime) (self : BotLogger) (message : value)
  (level_ : string) (console : ConsoleLevel) (args : list value) (kw : gmap string value) :
  keeps_queue (handle_generic_log rt self message level_ console args kw).
Proof. unfold handle_generic_log. keeps; apply keeps_lookup_channel. Qed.

Lemma keeps_handle_event_log (rt : Runtime) (self : BotLogger) (event_type : value)
  (args : list value) (kw : gmap string value) :
  keeps_queue (handle_event_log rt self event_type args kw).
Proof.
  unfold handle_event_log.
  keeps; first [apply keeps_lookup_channel | apply keeps_generate_event_data].
Qed.

Lemma keeps_handle_error_log (rt : Runtime) (self : BotLogger) (message : value)
  (args : list value) (kw : gmap string value) :
  keeps_queue (handle_error_log rt self message args kw).
Proof. unfold handle_error_log. keeps; apply keeps_lookup_channel. Qed.

Ltac keeps_handlers :=
  repeat first
    [ keeps_step
    | apply keeps_lookup_channel | apply keeps_generate_event_data
    | apply keeps_handle_generic_log | apply keeps_handle_event_log
    | apply keeps_handle_error_log ].

(** ** More on the queued path *)

Lemma handle_queue_log_run (rt : Runtime) (self : BotLogger) (w : World)
  (log : DelayedLog) (rest : list DelayedLog) :
  queue_wait self <> 0 -> send_queue w = log :: rest ->
  extends (dequeued w) (snd (handle_queue_log rt self w))
  /\ fst (handle_queue_log rt self w) <> Parked.
Proof.
  intros Hq Hw. unfold handle_queue_log.
  match goal with
  | |- context [bind (queue_get self) ?k] =>
      assert (Hk : forall l, keeps_queue (k l)) by (intros l; cbv beta; keeps_handlers)
  end.
  unfold bind, queue_get, dequeued. apply Z.eqb_neq in Hq. rewrite Hq, Hw.
  cbn [tl]. apply Hk.
Qed.

(** One turn removes the head, and only an error outside [Exception] ends it
    abnormally. *)
Lemma log_from_queue_turn_run (rt : Runtime) (self : BotLogger) (w : World)
  (log : DelayedLog) (rest : list DelayedLog) :
  queue_wait self <> 0 -> send_queue w = log :: rest ->
  send_queue (snd (log_from_queue_turn rt self w)) = rest
  /\ (fst (log_from_queue_turn rt self w) = Done tt
      \/ exists e, fst (log_from_queue_turn rt self w) = Raised e /\ is_Exception e = false).
Proof.
  intros Hq Hw.
  destruct (handle_queue_log_run rt self w log rest Hq Hw) as [(Hqueue & _) Hnp].
  unfold dequeued in Hqueue. cbn [send_queue] in Hqueue. rewrite Hw in Hqueue.
  cbn [tl] in Hqueue.
  unfold log_from_queue_turn, bind, except_Exception, sleep, ret.
  destruct (handle_queue_log rt self w) as [[[] | e |] w1]; cbn [fst snd] in *.
  - split; [exact Hqueue | left; reflexivity].
  - destruct (is_Exception e) eqn:E; cbn [console_log fst snd send_queue].
    + split; [exact Hqueue | left; reflexivity].
    + split; [exact Hqueue | right; eauto].
  - contradiction.
Qed.

Lemma Forall_free_in (kw : gmap string value) (keys : list string) (k : string) :
  Forall (fun p => kw !! p = None) keys -> In k keys -> kw !! k = None.
Proof. intros H Hin. rewrite List.Forall_forall in H. exact (H k Hin). Qed.

Lemma new_DelayedLog_free (rt : Runtime) (level : string) (log_message : option value)
  (kw : gmap string value) (w : World) :
  Forall (fun p => kw !! p = None) ["self"; "level"; "log_message"] ->
  new_DelayedLog rt level log_message [] kw w
  = (Done {| level := level;
             message := match log_message with Some m => m | None => VNone end;
             args := []; kwargs := <["time" := utcnow rt (clock_reads w)]> kw |},
     ticked w).
Proof.
  intros Hfree. unfold new_DelayedLog, bind at 1.
  rewrite bind_kwargs_free.
  2:{ destruct log_message; repeat constructor;
        apply (Forall_free_in kw _ _ Hfree); simpl; auto. }
  unfold bind, now, ret, kw_get_default.
  rewrite (Forall_free_in kw _ "log_message" Hfree) by (simpl; auto).
  rewrite delete_id by (apply (Forall_free_in kw _ _ Hfree); simpl; auto).
  destruct log_message; reflexivity.
Qed.

(** What a queued call does to the world. *)
Lemma run_call_enqueue_run (rt : Runtime) (self : BotLogger) (c : Call)
  (w : World) :
  queue_wait self <> 0 -> enqueues self c = true -> call_args c = [] ->
  Forall (fun p => call_kwargs c !! p = None) (reserved_keys c) ->
  (List.length (send_queue w) < maxsize)%nat ->
  run_call rt self c w = (Done tt, enqueued w (record_of c (utcnow rt (clock_reads w)))).
Proof.
  intros Hq He Ha Hfree Hlen.
  apply Z.eqb_neq in Hq. apply Nat.ltb_lt in Hlen.
  destruct c as [m a kw | m a kw | m a kw | m a kw | et a kw];
    cbn [run_call call_args call_kwargs reserved_keys record_of enqueues] in *; subst a;
    unfold info, debug, warning, error, event, bind at 1;
    rewrite bind_kwargs_free
      by (repeat constructor; apply (Forall_free_in kw _ _ Hfree); simpl; auto);
    rewrite Hq; try rewrite He; cbn [negb]; unfold bind at 1;
    rewrite new_DelayedLog_free.
  all: try (unfold queue_put, ticked; cbn [send_queue]; rewrite Hq, Hlen; reflexivity).
  all: try (repeat constructor; apply (Forall_free_in kw _ _ Hfree); simpl; auto).
  all: repeat constructor; try (rewrite lookup_insert_ne by discriminate);
    apply (Forall_free_in kw _ _ Hfree); simpl; auto.
Qed.

(** X6: with [queue_wait] set, a logging call without positional arguments
    whose keywords collide with no parameter appends exactly one record to a
    queue that is not full, stamped with the clock reading taken at the call,
    and returns; it writes nothing to the console and sends nothing. *)
Theorem queued_call_enqueues_one_record (rt : Runtime) (self : BotLogger) (c : Call)
  (w : World) :
  queue_wait self <> 0 -> enqueues self c = true -> call_args c = [] ->
  Forall (fun p => call_kwargs c !! p = None) (reserved_keys c) ->
  (List.length (send_queue w) < maxsize)%nat ->
  run_call rt self c w = (Done tt, enqueued w (record_of c (utcnow rt (clock_reads w))))
  /\ console (snd (run_call rt self c w)) = console w
  /\ sent (snd (run_call rt self c w)) = sent w.
Proof.
  intros Hq He Ha Hfree Hlen.
  rewrite (run_call_enqueue_run rt self c w Hq He Ha Hfree Hlen). repeat split.
Qed.

Lemma queued_call_enqueues_one_record_witness :
  run_call example_runtime (example_logger 5 None) (Info (VStr "m") [] example_kwargs)
    empty_world
  = (Done tt,
     {| console := []; sent := []; clock_reads := 1;
        send_queue :=
          [ {| level := "info"; message := VStr "m"; args := [];
               kwargs := <["time" := VInt 100]> example_kwargs |} ] |}).
Proof.
  apply (queued_call_enqueues_one_record example_runtime (example_logger 5 None)
           (Info (VStr "m") [] example_kwargs) empty_world).
  - vm_compute. discriminate.
  - reflexivity.
  - reflexivity.
  - repeat constructor.
  - vm_compute. lia.
Defined.

(** X7: a record enqueued on an empty queue and then taken by
    [handle_queue_log] is handled as the non-queued call would have been,
    with [time] set to the clock reading taken when it was enqueued. *)
Theorem queued_then_drained_is_direct (rt : Runtime) (self : BotLogger) (c : Call)
  (w : World) :
  queue_wait self <> 0 -> enqueues self c = true -> call_args c = [] ->
  Forall (fun p => call_kwargs c !! p = None) (reserved_keys c) ->
  send_queue w = [] -> event_type_ok c = true ->
  handle_queue_log rt self (snd (run_call rt self c w))
  = handle_direct rt self c (utcnow rt (clock_reads w)) (ticked w).
Proof.
  intros Hq He Ha Hfree Hw Hok.
  rewrite (run_call_enqueue_run rt self c w Hq He Ha Hfree)
    by (rewrite Hw; unfold maxsize; simpl; lia).
  apply Z.eqb_neq in Hq.
  unfold handle_queue_log, bind at 1, queue_get, enqueued, ticked.
  cbn [snd send_queue console sent clock_reads]. rewrite Hq, Hw. cbn [app].
  destruct c as [m a kw | m a kw | m a kw | m a kw | et a kw];
    cbn [record_of level message args kwargs handle_direct event_type_ok
         String.eqb Ascii.eqb Bool.eqb call_kwargs reserved_keys] in *;
    try reflexivity.
  unfold kw_get_default.
  rewrite lookup_insert_ne by discriminate. rewrite lookup_insert_eq. rewrite Hok.
  cbn [negb]. rewrite delete_insert_ne by discriminate. rewrite delete_insert_eq.
  rewrite delete_id by (apply (Forall_free_in kw _ _ Hfree); simpl; auto).
  reflexivity.
Qed.

Lemma queued_then_drained_is_direct_witness :
  handle_queue_log example_runtime (example_logger 5 None)
    (snd (run_call example_runtime (example_logger 5 None)
            (Event (VStr "member_join") [] example_kwargs) empty_world))
  = handle_event_log example_runtime (example_logger 5 None) (VStr "member_join") []
      (<["time" := VInt 100]> example_kwargs) (ticked empty_world).
Proof.
  apply (queued_then_drained_is_direct example_runtime (example_logger 5 None)
           (Event (VStr "member_join") [] example_kwargs) empty_world).
  - vm_compute. discriminate.
  - reflexivity.
  - reflexivity.
  - repeat constructor.
  - reflexivity.
  - reflexivity.
Defined.

Lemma falsy_event_type_has_no_renderer (rt : Runtime) (event_type : value) :
  truthy event_type = false ->
  assoc ("render_" ++ py_str rt event_type ++ "_event") (renderers rt) = None.
Proof.
  destruct event_type as [| b | n | s | xs | ]; cbn [truthy]; intros H; try discriminate.
  - reflexivity.
  - destruct b; [discriminate | reflexivity].
  - apply negb_false_iff, Z.eqb_eq in H. subst n. reflexivity.
  - apply negb_false_iff, String.eqb_eq in H. subst s. reflexivity.
  - destruct xs; [reflexivity | discriminate].
Qed.

(** X8: an [event] call with a falsy event type (None, the empty string, 0)
    is treated differently on the two paths.  Queued, the drain loop rejects
    the record: the turn logs "Could not read from log queue: Unable to get
    event_type from event log data" and nothing else happens.  Direct and
    console-only, the default rendering "New event: <event_type>" is logged. *)
Theorem falsy_event_type_dropped_from_queue (rt : Runtime) (self : BotLogger)
  (event_type : value) (kw : gmap string value) (w : World) :
  truthy event_type = false ->
  Forall (fun p => kw !! p = None) ["self"; "event_type"; "level"; "log_message"] ->
  send_queue w = [] ->
  (queue_wait self <> 0 ->
   log_from_queue_turn rt self (snd (event rt self event_type [] kw w))
   = (Done tt,
      logged console_error
        "Could not read from log queue: Unable to get event_type from event log data"
        (ticked w)))
  /\ (queue_wait self = 0 ->
      _is_console_only self kw false = true ->
      event rt self event_type [] kw w
      = (Done tt, logged console_info ("New event: " ++ py_str rt event_type) w)).
Proof.
  intros Hf Hfree Hw. split.
  - intros Hq.
    pose proof (run_call_enqueue_run rt self (Event event_type [] kw) w Hq eq_refl eq_refl
                  Hfree) as Hrun.
    cbn [run_call] in Hrun. rewrite Hrun by (rewrite Hw; unfold maxsize; simpl; lia).
    apply Z.eqb_neq in Hq.
    unfold log_from_queue_turn, handle_queue_log, bind, except_Exception, queue_get,
      enqueued, ticked, sleep, ret.
    cbn [snd send_queue console sent clock_reads]. rewrite Hq, Hw. cbn [app].
    cbn [record_of level message args kwargs String.eqb Ascii.eqb Bool.eqb].
    unfold kw_get_default.
    rewrite lookup_insert_ne by discriminate. rewrite lookup_insert_eq. rewrite Hf.
    reflexivity.
  - intros Hq Hc. unfold event, bind at 1.
    rewrite bind_kwargs_free
      by (repeat constructor; apply (Forall_free_in kw _ _ Hfree); simpl; auto).
    rewrite Hq. cbn [Z.eqb negb]. unfold handle_event_log, bind at 1.
    rewrite bind_kwargs_free
      by (repeat constructor; apply (Forall_free_in kw _ _ Hfree); simpl; auto).
    unfold bind at 1. rewrite generate_event_data_cases.
    rewrite falsy_event_type_has_no_renderer by exact Hf.
    cbn [default_rendering fst snd truthy].
    destruct (String.eqb_spec ("New event: " ++ py_str rt event_type) "") as [E | _];
      [discriminate |].
    cbn [negb]. unfold bind at 1. cbn [console_log]. rewrite Hc. reflexivity.
Qed.

Lemma falsy_event_type_dropped_from_queue_witness :
  log_from_queue_turn example_runtime (example_logger 5 None)
    (snd (event example_runtime (example_logger 5 None) (VStr "") [] example_kwargs
            empty_world))
  = (Done tt,
     logged console_error
       "Could not read from log queue: Unable to get event_type from event log data"
       (ticked empty_world)).
Proof.
  destruct (falsy_event_type_dropped_from_queue example_runtime (example_logger 5 None)
              (VStr "") example_kwargs empty_world) as [H _].
  - reflexivity.
  - repeat constructor.
  - reflexivity.
  - apply H. vm_compute. discriminate.
Defined.

Lemma assoc_In {A} (k : string) (v : A) (l : list (string * A)) :
  assoc k l = Some v -> In (k, v) l.
Proof.
  induction l as [| [k0 v0] l IH]; simpl; [discriminate |].
  destruct (String.eqb_spec k k0) as [-> | _]; [intros [= ->]; auto | auto].
Qed.

Lemma renderers_ignore_args (rt : Runtime) :
  Forall (fun entry => forall args kw, snd entry args kw = snd entry [] kw) (renderers rt).
Proof. repeat constructor. Qed.

Lemma lookup_renderer_ignores_args (rt : Runtime) (name : string) (args : list value)
  (kw : gmap string value) :
  lookup_renderer rt name args kw = lookup_renderer rt name [] kw.
Proof.
  unfold lookup_renderer. destruct (assoc name (renderers rt)) as [f |] eqn:E; [| reflexivity].
  apply assoc_In in E. pose proof (renderers_ignore_args rt) as H.
  rewrite List.Forall_forall in H. exact (H _ E args kw).
Qed.

Lemma generate_event_data_ignores_args (rt : Runtime) (event_type : value)
  (args : list value) (kw : gmap string value) (w : World) :
  generate_event_data rt event_type args kw w = generate_event_data rt event_type [] kw w.
Proof.
  unfold generate_event_data. rewrite lookup_renderer_ignores_args. reflexivity.
Qed.

Lemma bind_ext {A B} (m : M A) (k k' : A -> M B) (w : World) :
  (forall a w', k a w' = k' a w') -> bind m k w = bind m k' w.
Proof. intros H. unfold bind. destruct (m w) as [[a | e |] w']; auto. Qed.

Lemma handle_event_log_ignores_args (rt : Runtime) (self : BotLogger) (event_type : value)
  (args : list value) (kw : gmap string value) (w : World) :
  handle_event_log rt self event_type args kw w = handle_event_log rt self event_type [] kw w.
Proof.
  unfold handle_event_log. apply bind_ext. intros _ w1.
  unfold bind at 1 5. rewrite generate_event_data_ignores_args. reflexivity.
Qed.

(** X9: positional arguments are ignored by the non-queued path and fatal to
    the queued path: with [queue_wait] set, a call with any positional
    argument raises [TypeError] (it collides with [level] in
    [DelayedLog.__init__]) and enqueues nothing; with [queue_wait] unset the
    call behaves as the same call without them. *)
Theorem positional_args_only_break_queued_calls (rt : Runtime) (self : BotLogger)
  (c : Call) (w : World) :
  (queue_wait self <> 0 -> enqueues self c = true -> call_args c <> [] ->
   exists msg, run_call rt self c w = (Raised (Builtin (TypeError msg)), w))
  /\ (queue_wait self = 0 -> run_call rt self c w = run_call rt self (without_args c) w).
Proof.
  split.
  - intros Hq He Ha. apply Z.eqb_neq in Hq.
    destruct c as [m a kw | m a kw | m a kw | m a kw | et a kw];
      cbn [run_call call_args enqueues] in *;
      unfold info, debug, warning, error, event, bind at 1;
      match goal with
      | |- context [bind_kwargs ?f ?ps ?k ?w0] =>
          unfold bind_kwargs at 1; destruct (find _ ps); [eexists; reflexivity |]
      end;
      cbn [ret]; rewrite Hq; try rewrite He; cbn [negb];
      (destruct a; [contradiction |]); eexists; reflexivity.
  - intros Hq.
    destruct c as [m a kw | m a kw | m a kw | m a kw | et a kw];
      cbn [run_call without_args]; unfold info, debug, warning, error, event;
      apply bind_ext; intros _ w1; rewrite Hq; cbn [Z.eqb negb]; try reflexivity.
    apply handle_event_log_ignores_args.
Qed.

Lemma positional_args_only_break_queued_calls_witness :
  (exists msg,
     run_call example_runtime (example_logger 5 None)
       (Info (VStr "m") [VInt 1] example_kwargs) empty_world
     = (Raised (Builtin (TypeError msg)), empty_world))
  /\ run_call example_runtime (example_logger 0 None)
       (Info (VStr "m") [VInt 1] example_kwargs) empty_world
     = run_call example_runtime (example_logger 0 None)
         (Info (VStr "m") [] example_kwargs) empty_world.
Proof.
  split.
  - apply (proj1 (positional_args_only_break_queued_calls example_runtime
                    (example_logger 5 None) (Info (VStr "m") [VInt 1] example_kwargs)
                    empty_world)).
    + vm_compute. discriminate.
    + reflexivity.
    + discriminate.
  - apply (proj2 (positional_args_only_break_queued_calls example_runtime
                    (example_logger 0 None) (Info (VStr "m") [VInt 1] example_kwargs)
                    empty_world)).
    reflexivity.
Defined.

(** X10: one turn of the drain loop on a non-empty queue removes exactly the
    head record, whatever its handling does; the turn ends normally unless
    the handling raised an error outside [Exception]. *)
Theorem drain_turn_consumes_head (rt : Runtime) (self : BotLogger) (w : World)
  (log : DelayedLog) (rest : list DelayedLog) :
  queue_wait self <> 0 -> send_queue w = log :: rest ->
  send_queue (snd (log_from_queue_turn rt self w)) = rest
  /\ (fst (log_from_queue_turn rt self w) = Done tt
      \/ exists e, fst (log_from_queue_turn rt self w) = Raised e /\ is_Exception e = false).
Proof. apply log_from_queue_turn_run. Qed.

Lemma drain_turn_consumes_head_witness :
  send_queue (snd (log_from_queue_turn example_runtime (example_logger 5 None)
                     example_backlog))
  = [example_record]
  /\ (fst (log_from_queue_turn example_runtime (example_logger 5 None) example_backlog)
      = Done tt
      \/ exists e,
           fst (log_from_queue_turn example_runtime (example_logger 5 None) example_backlog)
           = Raised e
           /\ is_Exception e = false).
Proof.
  apply (drain_turn_consumes_head example_runtime (example_logger 5 None) example_backlog
           example_record [example_record]).
  - vm_compute. discriminate.
  - reflexivity.
Defined.

(** ** Where the handlers send *)

(** [lookup_channel] is [resolve_channel], lifted: it touches nothing. *)
Lemma lookup_channel_resolve (rt : Runtime) (self : BotLogger) (channel_id : value)
  (w : World) :
  lookup_channel rt self channel_id w = lift (resolve_channel rt self channel_id) w.
Proof.
  unfold lookup_channel, resolve_channel. destruct (truthy channel_id); [| reflexivity].
  unfold bind. destruct (py_int rt channel_id); reflexivity.
Qed.

Lemma new_sent_one (w : World) (l : list SendAttempt) :
  skipn (List.length (sent w)) (sent w ++ l) = l.
Proof. rewrite skipn_app, skipn_all, Nat.sub_diag. reflexivity. Qed.

(** [handle_generic_log], case by case. *)
Lemma generic_log_run (rt : Runtime) (self : BotLogger) (message : value)
  (level_ : string) (lvl : ConsoleLevel) (args : list value)
  (kw : gmap string value) (w : World) :
  Forall (fun p => kw !! p = None) ["self"; "message"; "level_"; "console"] ->
  _is_console_only self kw false = false ->
  handle_generic_log rt self message level_ lvl args kw w
  = match resolve_channel rt self (kw_get_default kw "channel" VNone) with
    | Raise e => (Raised (Builtin e), recorded lvl message w)
    | Ok channel =>
        let target := if truthy channel then channel else get_owner (bot self) in
        if truthy target
        then
          match generate_log_embed message level_ with
          | Raise e => (Raised (Builtin e), recorded lvl message w)
          | Ok embed =>
              except_Forbidden
                (do_send self target VNone
                   (Some (set_timestamp embed
                            (kw_get_default kw "time" (utcnow rt (clock_reads w))))))
                (ticked (recorded lvl message w))
          end
        else
          (Done tt,
           logged console_warning
             ("Could not determine Discord target to send " ++ level_ ++ " log")
             (recorded lvl message w))
    end.
Proof.
  intros Hfree Hc. unfold handle_generic_log, bind at 1.
  rewrite bind_kwargs_free by exact Hfree.
  unfold bind at 1. cbn [console_log]. rewrite Hc. unfold bind at 1.
  rewrite lookup_channel_resolve.
  destruct (resolve_channel rt self _) as [channel | e]; [| reflexivity].
  cbn [lift ret]. cbv zeta.
  destruct (truthy (if truthy channel then channel else get_owner (bot self)));
    cbn [negb]; [| reflexivity].
  unfold bind at 1.
  destruct (generate_log_embed message level_) as [embed | e]; [| reflexivity].
  reflexivity.
Qed.

(** X12: where [handle_generic_log] sends.  The console record is written
    first, with the message as passed.  The target is the channel the
    [channel] option resolves to when there is one, and the bot owner
    otherwise.  With no target, the warning "Could not determine Discord
    target to send <level_> log" is logged and the call returns.  With a
    target, exactly one send is attempted: the level's embed, stamped with
    the [time] option or else the clock, with no content. *)
Theorem generic_log_target_resolution (rt : Runtime) (self : BotLogger) (message : value)
  (level_ : string) (lvl : ConsoleLevel) (args : list value)
  (kw : gmap string value) (w : World) (channel : value) :
  Forall (fun p => kw !! p = None) ["self"; "message"; "level_"; "console"] ->
  _is_console_only self kw false = false ->
  resolve_channel rt self (kw_get_default kw "channel" VNone) = Ok channel ->
  let target := if truthy channel then channel else get_owner (bot self) in
  let run := handle_generic_log rt self message level_ lvl args kw w in
  (truthy target = false ->
   run = (Done tt,
          logged console_warning
            ("Could not determine Discord target to send " ++ level_ ++ " log")
            (recorded lvl message w)))
  /\ (truthy target = true ->
      forall embed,
        generate_log_embed message level_ = Ok embed ->
        let stamped_embed :=
          set_timestamp embed (kw_get_default kw "time" (utcnow rt (clock_reads w))) in
        console (snd run) = (console w ++ [(lvl, message)])%list
        /\ new_sent w (snd run)
           = [ {| sa_target := target; sa_content := VNone;
                  sa_embed := Some stamped_embed;
                  sa_outcome :=
                    target_send (bot self) target VNone (Some stamped_embed) |} ]).
Proof.
  intros Hfree Hc Hch target run. subst run.
  rewrite generic_log_run by assumption. rewrite Hch. cbv zeta. fold target.
  split; intros Ht; rewrite Ht; [reflexivity |].
  intros embed He. rewrite He.
  unfold except_Forbidden, do_send. cbn [ticked recorded console sent].
  destruct (target_send (bot self) target VNone _) as [e |] eqn:Hs.
  - destruct (is_Forbidden e); cbn [snd console sent]; unfold new_sent;
      cbn [sent]; rewrite new_sent_one; split; reflexivity.
  - cbn [snd console sent]; unfold new_sent; cbn [sent]; rewrite new_sent_one;
      split; reflexivity.
Qed.

Lemma generic_log_target_resolution_witness :
  new_sent empty_world
    (snd (handle_generic_log example_runtime (example_logger 0 None) (VStr "m") "info"
            console_info [] (<["channel" := VInt 42]> example_kwargs) empty_world))
  = [ {| sa_target := get_channel (example_bot None) 42; sa_content := VNone;
         sa_embed :=
           Some {| title := "INFO"; description := VStr "m"; color := green;
                   timestamp := Some (VInt 5); fields := [] |};
         sa_outcome := None |} ].
Proof.
  destruct (generic_log_target_resolution example_runtime (example_logger 0 None)
              (VStr "m") "info" console_info [] (<["channel" := VInt 42]> example_kwargs)
              empty_world (get_channel (example_bot None) 42)) as [_ H].
  - repeat constructor.
  - reflexivity.
  - reflexivity.
  - destruct (H eq_refl (LogEmbed InfoEmbed (VStr "m")) eq_refl) as [_ H2]. exact H2.
Defined.

(** Every renderer but the default one raises when its payload is missing. *)
Lemma renderers_need_payload (rt : Runtime) (name : string)
  (f : list value -> gmap string value -> res Rendered) (event_type : value)
  (args : list value) (kw : gmap string value) :
  In (name, f) (renderers rt) -> name <> "render_default_event" ->
  Forall (fun k => kw !! k = None) payload_keys ->
  exists e, f args (<["event_type" := event_type]> kw) = Raise e.
Proof.
  intros Hin Hname Hkeys.
  assert (Hget : Forall (fun k => (<["event_type" := event_type]> kw) !! k = None)
                   payload_keys).
  { assert (Hne : Forall (fun k => "event_type" <> k) payload_keys)
      by (repeat constructor; discriminate).
    rewrite List.Forall_forall in *. intros k Hk.
    rewrite lookup_insert_ne by (apply Hne, Hk). apply Hkeys, Hk. }
  clear Hkeys. set (kw' := <["event_type" := event_type]> kw) in *. clearbody kw'.
  unfold payload_keys in Hget. rewrite !List.Forall_cons_iff in Hget.
  destruct Hget as (K1 & K2 & K3 & K4 & K5 & K6 & K7 & K8 & K9 & K10 & K11 & K12 & K13 & _).
  unfold renderers in Hin. cbn [In] in Hin.
  repeat (destruct Hin as [Hin | Hin];
          [injection Hin as <- <-; try congruence;
           cbv [render_command_event render_message_delete_event
                render_message_edit_event render_bulk_message_delete_event
                render_reaction_add_event render_reaction_remove_event
                render_reaction_clear_event render_guild_channel_delete_event
                render_guild_channel_create_event render_guild_channel_update_event
                render_guild_channel_pins_update_event
                render_guild_integrations_update_event render_webhooks_update_event
                render_member_join_event render_member_remove_event
                render_member_update_event render_guild_join_event
                render_guild_remove_event render_guild_update_event
                render_guild_role_create_event render_guild_role_delete_event
                render_guild_role_update_event render_guild_emojis_update_event
                render_member_ban_event render_member_unban_event
                render_reaction_event render_channel_event render_guild_event
                render_member_event render_role_event render_ban_event
                kw_get kw_get_default];
           rewrite ?K1, ?K2, ?K3, ?K4, ?K5, ?K6, ?K7, ?K8, ?K9, ?K10, ?K11, ?K12, ?K13;
           eexists; reflexivity |]).
  destruct Hin.
Qed.

Lemma render_name_default (s : string) :
  "render_" ++ s ++ "_event" = "render_default_event" -> s = "default".
Proof.
  cbn [String.append]. intros [= H].
  do 7 (destruct s as [| ? s]; cbn [String.append] in H; [discriminate |];
        injection H as -> H).
  destruct s as [| ? s]; [reflexivity |]. exfalso.
  cbn [String.append] in H.
  do 6 (injection H as _ H; destruct s as [| ? s]; cbn [String.append] in H;
        try discriminate).
Qed.

(** X13: an event of a registered type other than "default", logged without
    any of the keywords its renderer reads, is not lost: the renderer raises,
    one console error is logged and the default rendering
    "New event: <event_type>" is used. *)
Theorem event_without_payload_renders_default (rt : Runtime) (event_type : value)
  (f : list value -> gmap string value -> res Rendered) (args : list value)
  (kw : gmap string value) (w : World) :
  assoc ("render_" ++ py_str rt event_type ++ "_event") (renderers rt) = Some f ->
  py_str rt event_type <> "default" ->
  Forall (fun k => kw !! k = None) payload_keys ->
  exists e,
    generate_event_data rt event_type args kw w
    = (Done (default_rendering rt event_type),
       logged console_error
         ("Could not render event data: " ++ error_str e ++ " (using default render)") w).
Proof.
  intros Hf Hne Hkeys. rewrite generate_event_data_cases, Hf.
  destruct (renderers_need_payload rt _ f event_type args kw (assoc_In _ _ _ Hf))
    as [e ->]; [| exact Hkeys | exists e; reflexivity].
  intros H. apply Hne, render_name_default, H.
Qed.

Lemma event_without_payload_renders_default_witness :
  exists e,
    generate_event_data example_runtime (VStr "member_join") []
      (<["membr" := example_member]> ∅) empty_world
    = (Done (default_rendering example_runtime (VStr "member_join")),
       logged console_error
         ("Could not render event data: " ++ error_str e ++ " (using default render)")
         empty_world).
Proof.
  apply (event_without_payload_renders_default example_runtime (VStr "member_join")
           (render_member_join_event example_runtime)).
  - reflexivity.
  - discriminate.
  - repeat constructor.
Defined.

(** [handle_error_log], case by case. *)
Lemma error_log_run (rt : Runtime) (self : BotLogger) (message : value)
  (args : list value) (kw : gmap string value) (w : World) :
  Forall (fun p => kw !! p = None) ["self"; "message"] ->
  _is_console_only self kw true = false ->
  let exception := kw_get_default kw "exception" VNone in
  let w1 := recorded console_error message w in
  handle_error_log rt self message args kw w
  = match getattr exception "__traceback__" with
    | Raise e => (Raised (Builtin e), w1)
    | Ok _ =>
        match resolve_channel rt self (kw_get_default kw "channel" VNone) with
        | Raise e => (Raised (Builtin e), ticked w1)
        | Ok channel =>
            match error_content self (kw_get kw "critical") channel with
            | Raise e => (Raised (Builtin e), ticked w1)
            | Ok content =>
                let target := if truthy channel then channel else get_owner (bot self) in
                let embed :=
                  {| title := "ERROR"; description := message; color := red;
                     timestamp :=
                       Some (kw_get_default kw "time" (utcnow rt (clock_reads w)));
                     fields := [] |} in
                let text := str_prefix 1992 (format_exception rt exception) in
                if truthy target
                then
                  except_Forbidden
                    (bind (do_send self target content (Some embed))
                       (fun _ => do_send self target
                                   (VStr ("```py" ++ newline ++ text ++ "```")) None))
                    (ticked w1)
                else
                  (Done tt,
                   logged console_warning
                     "Could not determine Discord target to send ERROR log" (ticked w1))
            end
        end
    end.
Proof.
  intros Hfree Hc exception w1.
  unfold handle_error_log, bind at 1.
  rewrite bind_kwargs_free by exact Hfree.
  unfold bind at 1. cbn [console_log]. rewrite Hc. fold exception. fold w1.
  change {| console := (console w ++ [(console_error, message)])%list; sent := sent w;
            clock_reads := clock_reads w; send_queue := send_queue w |} with w1.
  unfold bind at 1.
  destruct (getattr exception "__traceback__") as [tb | e]; [| reflexivity].
  cbn [lift ret].
  replace (generate_log_embed message "error") with (Ok (LogEmbed ErrorEmbed message))
    by reflexivity.
  unfold bind at 1. cbn [lift ret]. unfold bind at 1. cbn [now].
  unfold bind at 1. rewrite lookup_channel_resolve.
  change {| console := console w1; sent := sent w1; clock_reads := S (clock_reads w1);
            send_queue := send_queue w1 |} with (ticked w1).
  destruct (resolve_channel rt self _) as [channel | e]; [| reflexivity].
  cbn [lift ret]. unfold error_content.
  destruct (truthy (kw_get kw "critical")), (truthy channel) eqn:Hch.
  - unfold bind at 1. unfold bind at 1.
    destruct (getattr_path channel _) as [content | e]; [| reflexivity].
    cbn [lift ret fst snd]. rewrite Hch. cbn [negb]. reflexivity.
  - unfold bind at 1. unfold bind at 1.
    destruct (getattr (get_owner (bot self)) "mention") as [content | e]; [| reflexivity].
    cbn [lift ret fst snd].
    destruct (truthy (get_owner (bot self))); reflexivity.
  - unfold bind at 1. unfold bind at 1. cbn [ret fst snd]. rewrite Hch. reflexivity.
  - unfold bind at 1. unfold bind at 1. cbn [ret fst snd].
    destruct (truthy (get_owner (bot self))); reflexivity.
Qed.

Lemma error_attempts_run (self : BotLogger) (target content : value) (embed : Embed)
  (text : string) (w0 w : World) :
  sent w = sent w0 ->
  new_sent w0
    (snd (except_Forbidden
            (bind (do_send self target content (Some embed))
               (fun _ => do_send self target
                           (VStr ("```py" ++ newline ++ text ++ "```")) None)) w))
  = error_attempts self target content embed text.
Proof.
  intros Hs. unfold except_Forbidden, bind, do_send, error_attempts, new_sent.
  rewrite <- Hs.
  destruct (target_send (bot self) target content (Some embed)) as [e |].
  - destruct (is_Forbidden e); cbn [snd sent]; apply new_sent_one.
  - cbn [sent console clock_reads send_queue].
    destruct (target_send (bot self) target _ None) as [e |];
      [destruct (is_Forbidden e) |]; cbn [snd sent]; rewrite <- app_assoc;
      apply new_sent_one.
Qed.

(** X3: an error record that is not critical and is routed to the fallback
    owner (no [channel] option, or one that resolves to no channel) is sent
    as the embed, with no content, followed (when that send succeeds) by a
    code block holding the first 1992 characters of the formatted
    traceback. *)
Theorem error_log_sends_embed_then_traceback (rt : Runtime) (self : BotLogger)
  (message : value) (args : list value) (kw : gmap string value) (w : World)
  (exception traceback channel : value) :
  kw !! "self" = None -> kw !! "message" = None ->
  _is_console_only self kw true = false ->
  kw !! "exception" = Some exception ->
  getattr exception "__traceback__" = Ok traceback ->
  resolve_channel rt self (kw_get_default kw "channel" VNone) = Ok channel ->
  truthy channel = false ->
  truthy (get_owner (bot self)) = true ->
  truthy (kw_get kw "critical") = false ->
  let owner := get_owner (bot self) in
  let text := str_prefix 1992 (format_exception rt exception) in
  let embed :=
    {| title := "ERROR"; description := message; color := red;
       timestamp := Some (kw_get_default kw "time" (utcnow rt (clock_reads w)));
       fields := [] |} in
  let block := VStr ("```py" ++ newline ++ text ++ "```") in
  let first := target_send (bot self) owner VNone (Some embed) in
  String.length text = Nat.min 1992 (String.length (format_exception rt exception))
  /\ new_sent w (snd (handle_error_log rt self message args kw w))
     = {| sa_target := owner; sa_content := VNone; sa_embed := Some embed;
          sa_outcome := first |}
       :: match first with
          | None =>
              [ {| sa_target := owner; sa_content := block; sa_embed := None;
                   sa_outcome := target_send (bot self) owner block None |} ]
          | Some _ => []
          end.
Proof.
  intros H1 H2 Hc He Ht Hch Hn Ho Hcr owner text embed block first.
  split; [apply str_prefix_length |].
  rewrite error_log_run by (try assumption; repeat constructor; assumption).
  cbv zeta. unfold kw_get_default at 1. rewrite He, Ht, Hch.
  unfold error_content. rewrite Hcr, Hn, Ho.
  unfold kw_get_default at 2. rewrite He.
  rewrite error_attempts_run by reflexivity. reflexivity.
Qed.

Lemma error_log_sends_embed_then_traceback_witness :
  map (fun a => (sa_target a, sa_content a))
    (new_sent empty_world
       (snd (handle_error_log example_runtime (example_logger 0 None) (VStr "boom") []
               (<["channel" := VInt 7]> (<["exception" := example_exception]> ∅))
               empty_world)))
  = [ (example_owner, VNone);
      (example_owner,
       VStr ("```py" ++ newline ++ "Traceback (most recent call last):" ++ "```")) ].
Proof.
  pose proof (fun h1 h2 h3 h4 h5 h6 h7 h8 h9 =>
                proj2 (error_log_sends_embed_then_traceback example_runtime
                         (example_logger 0 None) (VStr "boom") []
                         (<["channel" := VInt 7]> (<["exception" := example_exception]> ∅))
                         empty_world example_exception VNone VNone
                         h1 h2 h3 h4 h5 h6 h7 h8 h9)) as H.
  rewrite H by (vm_compute; reflexivity). vm_compute. reflexivity.
Defined.

(** X14: a critical error record is sent with the owner's mention as content:
    the mention of the owner of the channel's guild when the [channel] option
    resolves, the bot owner's otherwise; the target is that channel, or the
    bot owner.  The embed goes first and the traceback block follows when the
    first send succeeds. *)
Theorem error_log_critical_mentions_owner (rt : Runtime) (self : BotLogger)
  (message : value) (args : list value) (kw : gmap string value) (w : World)
  (traceback channel mention : value) :
  Forall (fun p => kw !! p = None) ["self"; "message"] ->
  _is_console_only self kw true = false ->
  getattr (kw_get_default kw "exception" VNone) "__traceback__" = Ok traceback ->
  resolve_channel rt self (kw_get_default kw "channel" VNone) = Ok channel ->
  truthy (kw_get kw "critical") = true ->
  (if truthy channel
   then getattr_path channel ["guild"; "owner"; "mention"]
   else getattr (get_owner (bot self)) "mention") = Ok mention ->
  let target := if truthy channel then channel else get_owner (bot self) in
  truthy target = true ->
  let embed :=
    {| title := "ERROR"; description := message; color := red;
       timestamp := Some (kw_get_default kw "time" (utcnow rt (clock_reads w)));
       fields := [] |} in
  let text := str_prefix 1992 (format_exception rt (kw_get_default kw "exception" VNone)) in
  new_sent w (snd (handle_error_log rt self message args kw w))
  = error_attempts self target mention embed text.
Proof.
  intros Hfree Hc Htb Hch Hcr Hm target Ht embed text.
  rewrite error_log_run by assumption. cbv zeta.
  rewrite Htb, Hch. unfold error_content. rewrite Hcr, Hm. fold target. rewrite Ht.
  apply error_attempts_run. reflexivity.
Qed.

Lemma error_log_critical_mentions_owner_witness :
  new_sent empty_world
    (snd (handle_error_log example_runtime (example_logger 0 None) (VStr "boom") []
            example_error_kwargs empty_world))
  = [ {| sa_target := get_channel (example_bot None) 42; sa_content := VStr "<@7>";
         sa_embed :=
           Some {| title := "ERROR"; description := VStr "boom"; color := red;
                   timestamp := Some (VInt 5); fields := [] |};
         sa_outcome := None |};
      {| sa_target := get_channel (example_bot None) 42;
         sa_content :=
           VStr ("```py" ++ newline ++ "Traceback (most recent call last):" ++ "```");
         sa_embed := None; sa_outcome := None |} ].
Proof.
  apply (error_log_critical_mentions_owner example_runtime (example_logger 0 None)
           (VStr "boom") [] example_error_kwargs empty_world VNone
           (get_channel (example_bot None) 42) (VStr "<@7>")).
  - repeat constructor.
  - reflexivity.
  - reflexivity.
  - reflexivity.
  - reflexivity.
  - reflexivity.
  - reflexivity.
Defined.

(** X15: [handle_error_log] without an [exception] keyword logs the message to
    the console and then, unless the record is console-only, raises
    [AttributeError] on [None.__traceback__]; nothing is sent. *)
Theorem error_log_without_exception_raises (rt : Runtime) (self : BotLogger)
  (message : value) (args : list value) (kw : gmap string value) (w : World) :
  Forall (fun p => kw !! p = None) ["self"; "message"] ->
  kw !! "exception" = None ->
  handle_error_log rt self message args kw w
  = ((if _is_console_only self kw true
      then Done tt
      else Raised (Builtin (AttributeError
                              "'NoneType' object has no attribute '__traceback__'"))),
     recorded console_error message w).
Proof.
  intros Hfree He.
  destruct (_is_console_only self kw true) eqn:Hc.
  - unfold handle_error_log, bind at 1.
    rewrite bind_kwargs_free by exact Hfree.
    unfold bind at 1. cbn [console_log]. rewrite Hc. reflexivity.
  - rewrite error_log_run by assumption. cbv zeta.
    unfold kw_get_default at 1. rewrite He. reflexivity.
Qed.

Lemma error_log_without_exception_raises_witness :
  handle_error_log example_runtime (example_logger 0 None) (VStr "boom") [] example_kwargs
    empty_world
  = (Raised (Builtin (AttributeError
                        "'NoneType' object has no attribute '__traceback__'")),
     recorded console_error (VStr "boom") empty_world).
Proof.
  apply (error_log_without_exception_raises example_runtime (example_logger 0 None)
           (VStr "boom") [] example_kwargs empty_world).
  - repeat constructor.
  - reflexivity.
Defined.

(** X16: a truthy [channel] option that [int] rejects makes
    [handle_generic_log] raise [int]'s error after the console record has
    been written; nothing is sent and the owner is not tried. *)
Theorem generic_log_bad_channel_id_raises (rt : Runtime) (self : BotLogger)
  (message : value) (level_ : string) (lvl : ConsoleLevel) (args : list value)
  (kw : gmap string value) (w : World) (channel_id : value) (e : py_error) :
  Forall (fun p => kw !! p = None) ["self"; "message"; "level_"; "console"] ->
  _is_console_only self kw false = false ->
  kw !! "channel" = Some channel_id -> truthy channel_id = true ->
  py_int rt channel_id = Raise e ->
  handle_generic_log rt self message level_ lvl args kw w
  = (Raised (Builtin e), recorded lvl message w).
Proof.
  intros Hfree Hc Hk Ht He. rewrite generic_log_run by assumption.
  unfold resolve_channel, kw_get_default. rewrite Hk, Ht, He. reflexivity.
Qed.

Lemma generic_log_bad_channel_id_raises_witness :
  handle_generic_log example_runtime (example_logger 0 None) (VStr "m") "info"
    console_info [] (<["channel" := VStr "general"]> example_kwargs) empty_world
  = (Raised (Builtin (ValueError "invalid literal for int() with base 10: <str>")),
     recorded console_info (VStr "m") empty_world).
Proof.
  apply (generic_log_bad_channel_id_raises example_runtime (example_logger 0 None)
           (VStr "m") "info" console_info [] (<["channel" := VStr "general"]> example_kwargs)
           empty_world (VStr "general")).
  - repeat constructor.
  - reflexivity.
  - reflexivity.
  - reflexivity.
  - reflexivity.
Defined.

(** [handle_event_log], case by case, once the renderer has run. *)
Lemma event_log_run (rt : Runtime) (self : BotLogger) (event_type : value)
  (args : list value) (kw : gmap string value) (w w1 : World) (msg : value)
  (embed : option Embed) :
  Forall (fun p => kw !! p = None) ["self"; "event_type"] ->
  generate_event_data rt event_type args kw w = (Done (msg, embed), w1) ->
  handle_event_log rt self event_type args kw w
  = if truthy msg
    then
      if _is_console_only self kw false
      then (Done tt, recorded console_info msg w1)
      else
        match resolve_channel rt self (kw_get_default kw "channel" VNone) with
        | Raise e => (Raised (Builtin e), recorded console_info msg w1)
        | Ok channel =>
            let target := if truthy channel then channel else get_owner (bot self) in
            if truthy target
            then
              match embed with
              | None => (Done tt, recorded console_info msg w1)
              | Some embed =>
                  except_Forbidden
                    (do_send self target VNone
                       (Some (set_timestamp embed
                                (kw_get_default kw "time" (utcnow rt (clock_reads w1))))))
                    (ticked (recorded console_info msg w1))
              end
            else
              (Done tt,
               logged console_warning
                 "Could not determine Discord target to send EVENT log"
                 (recorded console_info msg w1))
        end
    else (Done tt, w1).
Proof.
  intros Hfree Hg. unfold handle_event_log, bind at 1.
  rewrite bind_kwargs_free by exact Hfree.
  unfold bind at 1. rewrite Hg. cbn [fst snd].
  destruct (truthy msg); cbn [negb]; [| reflexivity].
  unfold bind at 1. cbn [console_log].
  destruct (_is_console_only self kw false); [reflexivity |].
  unfold bind at 1. rewrite lookup_channel_resolve.
  destruct (resolve_channel rt self _) as [channel | e]; [| reflexivity].
  cbn [lift ret]. cbv zeta.
  destruct (truthy (if truthy channel then channel else get_owner (bot self)));
    cbn [negb]; [| reflexivity].
  destruct embed as [embed |]; reflexivity.
Qed.

(** X17: where [handle_event_log] sends.  When the renderer returned a summary
    and an embed and the record is not console-only, the summary is logged at
    INFO level; with no target the warning "Could not determine Discord
    target to send EVENT log" follows; with a target, exactly one send is
    attempted: the renderer's embed, stamped with the [time] option or else
    the clock, with no content. *)
Theorem event_log_delivers_rendered_embed (rt : Runtime) (self : BotLogger)
  (event_type : value) (args : list value) (kw : gmap string value) (w w1 : World)
  (msg channel : value) (embed : Embed) :
  Forall (fun p => kw !! p = None) ["self"; "event_type"] ->
  _is_console_only self kw false = false ->
  generate_event_data rt event_type args kw w = (Done (msg, Some embed), w1) ->
  truthy msg = true ->
  resolve_channel rt self (kw_get_default kw "channel" VNone) = Ok channel ->
  let target := if truthy channel then channel else get_owner (bot self) in
  let run := handle_event_log rt self event_type args kw w in
  (truthy target = false ->
   run = (Done tt,
          logged console_warning "Could not determine Discord target to send EVENT log"
            (recorded console_info msg w1)))
  /\ (truthy target = true ->
      let stamped_embed :=
        set_timestamp embed (kw_get_default kw "time" (utcnow rt (clock_reads w))) in
      console (snd run) = (console w1 ++ [(console_info, msg)])%list
      /\ new_sent w (snd run)
         = [ {| sa_target := target; sa_content := VNone;
                sa_embed := Some stamped_embed;
                sa_outcome :=
                  target_send (bot self) target VNone (Some stamped_embed) |} ]).
Proof.
  intros Hfree Hc Hg Hm Hch target run. subst run.
  rewrite (event_log_run rt self event_type args kw w w1 msg (Some embed) Hfree Hg).
  rewrite Hm, Hc, Hch. cbv zeta. fold target.
  destruct (generate_event_data_run rt event_type args kw w)
    as (r & w' & Hg' & Hs & Hk).
  rewrite Hg in Hg'. injection Hg' as <- <-.
  split; intros Ht; rewrite Ht; [reflexivity |].
  rewrite Hk. unfold except_Forbidden, do_send, new_sent.
  cbn [ticked recorded console sent]. rewrite <- Hs.
  destruct (target_send (bot self) target VNone _) as [e |];
    [destruct (is_Forbidden e) |]; cbn [snd console sent]; rewrite new_sent_one;
    split; reflexivity.
Qed.

Lemma event_log_delivers_rendered_embed_witness :
  new_sent empty_world
    (snd (handle_event_log example_runtime (example_logger 0 None) (VStr "member_join") []
            (<["member" := example_member]> example_kwargs) empty_world))
  = [ {| sa_target := example_owner; sa_content := VNone;
         sa_embed :=
           Some {| title := "EVENT";
                   description := VStr "Member with ID 5 has joined guild with ID 1";
                   color := blurple; timestamp := Some (VInt 5);
                   fields := [ {| name := "Member"; fvalue := example_member |};
                               {| name := "Server"; fvalue := VStr "home (1)" |} ] |};
         sa_outcome := None |} ].
Proof.
  destruct (event_log_delivers_rendered_embed example_runtime (example_logger 0 None)
              (VStr "member_join") [] (<["member" := example_member]> example_kwargs)
              empty_world empty_world
              (VStr "Member with ID 5 has joined guild with ID 1") VNone
              {| title := "EVENT";
                 description := VStr "Member with ID 5 has joined guild with ID 1";
                 color := blurple; timestamp := None;
                 fields := [ {| name := "Member"; fvalue := example_member |};
                             {| name := "Server"; fvalue := VStr "home (1)" |} ] |})
    as [_ H].
  - repeat constructor.
  - reflexivity.
  - reflexivity.
  - reflexivity.
  - reflexivity.
  - destruct (H eq_refl) as [_ H2]. exact H2.
Defined.

(** ** The drain loop under failing sends *)

Lemma only_ret {A} (a : A) : raises_exceptions_only (ret a).
Proof. intros w e. discriminate. Qed.

Lemma only_raise {A} (e : exn) : is_Exception e = true -> raises_exceptions_only (@raise A e).
Proof. intros He w e' [= <-]. exact He. Qed.

Lemma only_lift {A} (r : res A) : raises_exceptions_only (lift r).
Proof. destruct r; [apply only_ret | apply only_raise; reflexivity]. Qed.

Lemma only_bind {A B} (m : M A) (k : A -> M B) :
  raises_exceptions_only m -> (forall a, raises_exceptions_only (k a)) ->
  raises_exceptions_only (bind m k).
Proof.
  intros Hm Hk w e. unfold bind. specialize (Hm w).
  destruct (m w) as [[a | e' |] w1]; cbn [fst snd] in *.
  - apply Hk.
  - intros [= <-]. apply Hm. reflexivity.
  - discriminate.
Qed.

Lemma only_console_log (lvl : ConsoleLevel) (msg : value) :
  raises_exceptions_only (console_log lvl msg).
Proof. intros w e. discriminate. Qed.

Lemma only_now (rt : Runtime) : raises_exceptions_only (now rt).
Proof. intros w e. discriminate. Qed.

Lemma only_do_send (self : BotLogger) (target content : value) (embed : option Embed) :
  send_failures_are_exceptions self ->
  raises_exceptions_only (do_send self target content embed).
Proof.
  intros Hs w e. unfold do_send.
  destruct (target_send (bot self) target content embed) as [e' |] eqn:E;
    [| discriminate].
  intros [= <-]. exact (Hs _ _ _ _ E).
Qed.

Lemma only_except_Forbidden (body : M unit) :
  raises_exceptions_only body -> raises_exceptions_only (except_Forbidden body).
Proof.
  intros Hb w e. unfold except_Forbidden. specialize (Hb w).
  destruct (body w) as [[a | e' |] w1]; cbn [fst snd] in *; try discriminate.
  destruct (is_Forbidden e'); [discriminate |]. intros [= <-]. apply Hb. reflexivity.
Qed.

Lemma only_except_Exception {A} (body : M A) (handler : exn -> M A) :
  (forall e, raises_exceptions_only (handler e)) ->
  raises_exceptions_only body ->
  raises_exceptions_only (except_Exception body handler).
Proof.
  intros Hh Hb w e. unfold except_Exception. specialize (Hb w).
  destruct (body w) as [[a | e' |] w1]; cbn [fst snd] in *; try discriminate.
  rewrite (Hb e' eq_refl). apply Hh.
Qed.

Lemma only_bind_kwargs (func : string) (params : list string) (kw : gmap string value) :
  raises_exceptions_only (bind_kwargs func params kw).
Proof.
  unfold bind_kwargs.
  destruct (find _ params); [apply only_raise; reflexivity | apply only_ret].
Qed.

Lemma only_queue_get (self : BotLogger) : raises_exceptions_only (queue_get self).
Proof.
  intros w e. unfold queue_get.
  destruct (queue_wait self =? 0); [intros [= <-]; reflexivity |].
  destruct (send_queue w); discriminate.
Qed.

Ltac only_step Hs :=
  match goal with
  | |- raises_exceptions_only (ret _) => apply only_ret
  | |- raises_exceptions_only (raise _) => apply only_raise; reflexivity
  | |- raises_exceptions_only (lift _) => apply only_lift
  | |- raises_exceptions_only (console_log _ _) => apply only_console_log
  | |- raises_exceptions_only (now _) => apply only_now
  | |- raises_exceptions_only (do_send _ _ _ _) => apply only_do_send; exact Hs
  | |- raises_exceptions_only (bind_kwargs _ _ _) => apply only_bind_kwargs
  | |- raises_exceptions_only (queue_get _) => apply only_queue_get
  | |- raises_exceptions_only (except_Forbidden _) => apply only_except_Forbidden
  | |- raises_exceptions_only (except_Exception _ _) =>
      apply only_except_Exception; [intros ? |]
  | |- raises_exceptions_only (bind _ _) => apply only_bind; [| intros ?]
  | |- raises_exceptions_only (if ?b then _ else _) => destruct b
  | |- raises_exceptions_only (match ?x with _ => _ end) => destruct x
  end.

Lemma only_handle_queue_log (rt : Runtime) (self : BotLogger) :
  send_failures_are_exceptions self ->
  raises_exceptions_only (handle_queue_log rt self).
Proof.
  intros Hs.
  unfold handle_queue_log, handle_generic_log, handle_event_log, handle_error_log,
    generate_event_data, lookup_channel.
  repeat only_step Hs.
Qed.

Lemma log_from_queue_turn_done (rt : Runtime) (self : BotLogger) (w : World)
  (log : DelayedLog) (rest : list DelayedLog) :
  queue_wait self <> 0 -> send_failures_are_exceptions self ->
  send_queue w = log :: rest ->
  exists w', log_from_queue_turn rt self w = (Done tt, w') /\ send_queue w' = rest.
Proof.
  intros Hq Hs Hw.
  destruct (log_from_queue_turn_run rt self w log rest Hq Hw) as [Hrest Hout].
  assert (Honly : raises_exceptions_only (log_from_queue_turn rt self)).
  { unfold log_from_queue_turn, sleep.
    repeat only_step Hs. apply only_handle_queue_log, Hs. }
  destruct (log_from_queue_turn rt self w) as [o w'] eqn:E. cbn [fst snd] in *.
  exists w'. split; [| exact Hrest].
  destruct Hout as [-> | (e & -> & He)]; [reflexivity |].
  specialize (Honly w e). rewrite E in Honly. rewrite Honly in He by reflexivity.
  discriminate.
Qed.

(** X18: when every failure of a send derives from [Exception], the drain
    loop does not stop on a backlog: [turns] turns on a queue of at least
    [turns] records all end normally and consume exactly the first [turns]
    records. *)
Theorem drain_loop_survives_exceptions (rt : Runtime) (self : BotLogger) (turns : nat)
  (w : World) :
  queue_wait self <> 0 -> send_failures_are_exceptions self ->
  (turns <= List.length (send_queue w))%nat ->
  fst (log_from_queue rt self turns w) = Done tt
  /\ send_queue (snd (log_from_queue rt self turns w)) = skipn turns (send_queue w).
Proof.
  intros Hq Hs. revert w.
  induction turns as [| turns IH]; intros w Hlen; [split; reflexivity |].
  destruct (send_queue w) as [| log rest] eqn:Hw; [cbn in Hlen; lia |].
  destruct (log_from_queue_turn_done rt self w log rest Hq Hs Hw) as (w' & Hturn & Hrest).
  assert (Hrun : log_from_queue rt self (S turns) w = log_from_queue rt self turns w').
  { cbn [log_from_queue]. unfold bind at 1. rewrite Hturn. reflexivity. }
  rewrite Hrun. cbn [skipn]. rewrite <- Hrest. apply IH. rewrite Hrest.
  cbn in Hlen. lia.
Qed.

Lemma drain_loop_survives_exceptions_witness :
  fst (log_from_queue example_runtime failing_logger 2 example_backlog) = Done tt
  /\ send_queue (snd (log_from_queue example_runtime failing_logger 2 example_backlog))
     = [].
Proof.
  apply (drain_loop_survives_exceptions example_runtime failing_logger 2 example_backlog).
  - vm_compute. discriminate.
  - intros target content embed e [= <-]. reflexivity.
  - vm_compute. lia.
Defined.
